(** * A shallow embedding of the retrieval-augmented answering backend

    The development follows the Python sources module by module:

    - [PyStr], [PySlice], [Py]: the [str], [re], slicing and dictionary
      primitives the backend relies on;
    - [Config]: [backend/config.py];
    - [ScopeValidator]: [backend/guardrail/scope_validator.py];
    - [TextChunker]: [backend/preprocessing/chunker.py];
    - [VectorStore]: the query side of [backend/preprocessing/vector_store.py];
      its [add_documents] is in [Pipeline];
    - [Retriever]: [backend/rag/retriever.py];
    - [LLMClient]: [backend/rag/llm_client.py];
    - [AnswerGenerator]: [backend/rag/answer_generator.py];
    - [ChunkMetadata]: [TextChunker.extract_metadata];
    - [Pipeline]: the data [backend/preprocessing/run_pipeline.py] prepares
      for the index.

    The properties follow in [ScopeGate], [Chunking], [Retrieval] and
    [Orchestrator]; [Tests] replays examples of the test suite.  Further
    properties of the same code are in [ScopeGateMore], [ChunkingMore],
    [RetrievalMore], [OrchestratorMore] and [Ingestion].

    Conventions.  A Python [str] is a [string]; the character predicates are
    those of Python on ASCII text (code points below 128).  A Python [int] is
    a [Z].  A [float] is a rational [Q]: the scores are quotients of two
    list lengths compared with a threshold, the relevance is one minus a
    distance; rounding is not modelled.  A [dict] with a varying key set is
    a [gmap string _], a [dict] with a fixed key set is a record.  An
    exception is a value of [Py.exn]; a computation that may raise or call
    an external service lives in the monad [Eff.M], which records the
    external calls in a trace.  Logging is not modelled. *)

From Stdlib Require Import ZArith QArith List Ascii String Bool Lia Lqa DecimalString.
From Stdlib Require Import DecimalNat.
From stdpp Require Import base strings gmap.
Import ListNotations.

Local Open Scope string_scope.
Local Open Scope list_scope.
Local Open Scope Z_scope.

(* ===================================================================== *)
(** * Python string primitives *)
(* ===================================================================== *)

Module PyStr.

Definition chars (s : string) : list ascii := list_ascii_of_string s.
Definition str (l : list ascii) : string := string_of_list_ascii l.

Definition code (c : ascii) : nat := nat_of_ascii c.

Definition in_range (lo hi : nat) (c : ascii) : bool :=
  (Nat.leb lo (code c) && Nat.leb (code c) hi)%bool.

(** [str.isspace] on ASCII: TAB, LF, VT, FF, CR, FS, GS, RS, US, SPACE.
    The same class is [\s] in a [str] pattern. *)
Definition is_space (c : ascii) : bool :=
  (in_range 9 13 c || in_range 28 31 c || Nat.eqb (code c) 32)%bool.

Definition is_digit (c : ascii) : bool := in_range 48 57 c.
Definition is_upper (c : ascii) : bool := in_range 65 90 c.
Definition is_lower (c : ascii) : bool := in_range 97 122 c.

(** [\w]: letters, digits and the underscore. *)
Definition is_word (c : ascii) : bool :=
  (is_digit c || is_upper c || is_lower c || Nat.eqb (code c) 95)%bool.

Definition lower_char (c : ascii) : ascii :=
  if is_upper c then ascii_of_nat (code c + 32) else c.

(** [s.lower()] *)
Definition lower (s : string) : string := str (map lower_char (chars s)).

(** Maximal runs of characters satisfying [p], left to right; [cur] is
    the run being read. *)
Fixpoint runs (p : ascii -> bool) (cs cur : list ascii) : list (list ascii) :=
  match cs with
  | [] => match cur with [] => [] | _ => [cur] end
  | c :: r =>
      if p c then runs p r (cur ++ [c])%list
      else match cur with
           | [] => runs p r []
           | _ => cur :: runs p r []
           end
  end.

Definition not_space (c : ascii) : bool := negb (is_space c).

(** [s.split()] with no argument: the maximal runs of non-whitespace. *)
Definition split (s : string) : list string :=
  map str (runs not_space (chars s) []).

(** A word as [split] returns it: non-empty and free of whitespace. *)
Definition is_token (w : string) : Prop :=
  chars w <> [] /\ forallb not_space (chars w) = true.

(** [re.findall(r'\b\w+\b', s)]: the maximal runs of word characters. *)
Definition findall_words (s : string) : list string :=
  map str (runs is_word (chars s) []).

(** [sep.join(l)] *)
Fixpoint join (sep : string) (l : list string) : string :=
  match l with
  | [] => ""
  | [w] => w
  | w :: r => (w ++ sep ++ join sep r)%string
  end.

Fixpoint drop_space (cs : list ascii) : list ascii :=
  match cs with
  | [] => []
  | c :: r => if is_space c then drop_space r else cs
  end.

(** [s.strip()] with no argument. *)
Definition strip (s : string) : string :=
  str (rev (drop_space (rev (drop_space (chars s))))).

Fixpoint is_prefix (a b : list ascii) : bool :=
  match a, b with
  | [], _ => true
  | _ :: _, [] => false
  | x :: a', y :: b' => (Ascii.eqb x y && is_prefix a' b')%bool
  end.

Fixpoint contains_chars (needle hay : list ascii) : bool :=
  (is_prefix needle hay ||
   match hay with
   | [] => false
   | _ :: h => contains_chars needle h
   end)%bool.

(** [needle in hay] on strings. *)
Definition contains (needle hay : string) : bool :=
  contains_chars (chars needle) (chars hay).

(** Truth value of a string: [not s] holds of the empty string only. *)
Definition is_empty (s : string) : bool :=
  match s with EmptyString => true | _ => false end.

(** [any(term in s for term in terms)] *)
Definition any_in (terms : list string) (s : string) : bool :=
  existsb (fun t => contains t s) terms.

End PyStr.

(* ===================================================================== *)
(** * backend/config.py *)
(* ===================================================================== *)

Module Config.

Definition TOP_K_RETRIEVAL : Z := 3.

Definition DEPARTMENT_KEYWORDS : list string :=
  [ "program"; "programs"; "eligibility"; "faculty"; "department"; "departments";
    "dean"; "chairman"; "m.sc"; "msc"; "ph.d"; "phd"; "engineering"; "admission";
    "admissions"; "course"; "courses"; "semester"; "credit"; "credits"; "fee"; "fees";
    "requirement"; "requirements"; "degree"; "degrees"; "undergraduate"; "graduate";
    "postgraduate"; "bachelor"; "master"; "doctorate"; "curriculum"; "syllabus";
    "professor"; "lecturer"; "instructor"; "staff"; "hod"; "head"; "contact";
    "email"; "phone"; "office"; "building"; "lab"; "laboratory"; "research";
    "thesis"; "dissertation"; "cgpa"; "gpa"; "merit"; "scholarship"; "duration" ].

Definition GUARDRAIL_MESSAGE : string := "I only answer department information.".

(** Default of the [threshold] argument of [ScopeValidator.__init__]. *)
Definition DEFAULT_THRESHOLD : Q := 15 # 100.

End Config.

(* ===================================================================== *)
(** * backend/guardrail/scope_validator.py *)
(* ===================================================================== *)

Module ScopeValidator.
Import PyStr.

Record t := mk {
  keywords : list string;
  threshold : Q;
  keywords_lower : list string
}.

(** [__init__]: [keywords or DEPARTMENT_KEYWORDS] takes the default for
    [None] and for the empty list. *)
Definition init (kws : option (list string)) (th : Q) : t :=
  let ks := match kws with
            | Some (k :: r) => k :: r
            | _ => Config.DEPARTMENT_KEYWORDS
            end in
  mk ks th (map lower ks).

(** The third component of the result of [is_department_related]; the
    source renders it as text. *)
Inductive reason :=
| EmptyQuestion
| NoValidWords
| Matched (n : nat) (preview : list string)
| NoKeywordMatches.

(** The loop collecting [keyword_matches]. *)
Definition keyword_matches (v : t) (question_lower : string) : list string :=
  List.filter (fun keyword => contains keyword question_lower) (keywords_lower v).

Definition ratio (m n : nat) : Q := Z.of_nat m # Pos.of_nat n.

Definition is_department_related (v : t) (question : string) : bool * Q * reason :=
  if (is_empty question || is_empty (strip question))%bool then
    (false, 0%Q, EmptyQuestion)
  else
    let question_lower := lower question in
    let question_words := findall_words question_lower in
    match question_words with
    | [] => (false, 0%Q, NoValidWords)
    | _ =>
        let matches := keyword_matches v question_lower in
        let match_score := ratio (length matches) (length question_words) in
        let is_related :=
          (Qle_bool (threshold v) match_score || Nat.leb 2 (length matches))%bool in
        let why := match matches with
                   | [] => NoKeywordMatches
                   | _ => Matched (length matches) (firstn 5 matches)
                   end in
        (is_related, match_score, why)
    end.

Definition validate_and_respond (v : t) (question : string) : bool * string :=
  let '(is_related, _, _) := is_department_related v question in
  if negb is_related then (false, Config.GUARDRAIL_MESSAGE) else (true, "").

Definition add_keywords (v : t) (new_keywords : list string) : t :=
  let ks := (keywords v ++ new_keywords)%list in
  mk ks (threshold v) (map lower ks).

Definition accepted (v : t) (question : string) : bool :=
  fst (fst (is_department_related v question)).

Definition score (v : t) (question : string) : Q :=
  snd (fst (is_department_related v question)).

(** The counts the classification is specified by: the configured
    keywords, taken once each, that occur in the lower-cased question, and
    the word tokens of the lower-cased question. *)
Definition matched_keyword_count (v : t) (question : string) : nat :=
  length (nodup string_dec
            (List.filter (fun keyword => contains keyword (lower question))
                         (keywords_lower v))).

Definition token_count (question : string) : nat :=
  length (findall_words (lower question)).

(** Input that is empty or made of whitespace only. *)
Definition blank (question : string) : bool := forallb is_space (chars question).

Fixpoint distinct (l : list string) : bool :=
  match l with
  | [] => true
  | x :: r => (negb (existsb (String.eqb x) r) && distinct r)%bool
  end.

Definition has_word_char (s : string) : bool := existsb is_word (chars s).

(** A keyword configuration as [config.py] provides it: no keyword is
    listed twice, every keyword contains a letter, a digit or an underscore,
    and the threshold is positive. *)
Definition well_configured (v : t) : bool :=
  (distinct (keywords_lower v) && forallb has_word_char (keywords_lower v)
   && negb (Qle_bool (threshold v) 0))%bool.

(** [keywords_lower] is kept equal to the lower-cased [keywords]. *)
Definition consistent (v : t) : Prop := keywords_lower v = map lower (keywords v).

End ScopeValidator.

(* ===================================================================== *)
(** * backend/preprocessing/chunker.py *)
(* ===================================================================== *)

(** List slicing [l[a:b]] with Python's treatment of negative and
  out-of-range bounds. *)
Module PySlice.

Definition norm_index (len i : Z) : Z :=
  if i <? 0 then Z.max (i + len) 0 else Z.min i len.

Definition slice {A : Type} (l : list A) (a b : Z) : list A :=
  let len := Z.of_nat (length l) in
  let a' := norm_index len a in
  let b' := norm_index len b in
  firstn (Z.to_nat (b' - a')) (skipn (Z.to_nat a') l).

End PySlice.

Module TextChunker.
Import PyStr.

Record t := mk { chunk_size : Z; overlap : Z }.

(** [__init__] with its defaults *)
Definition default : t := mk 500 100.

(** The [while start < total_words] loop of [chunk_by_words].  The loop
    need not terminate (it does not when [overlap >= chunk_size] and the
    first window does not cover the text), so it runs on [fuel]; [None]
    means that the fuel ran out. *)
Fixpoint words_loop (fuel : nat) (c : t) (words : list string)
         (start : Z) (chunks : list string) : option (list string) :=
  match fuel with
  | O => None
  | S fuel' =>
      let total_words := Z.of_nat (length words) in
      if start <? total_words then
        let end_ := Z.min (start + chunk_size c) total_words in
        let chunk_words := PySlice.slice words start end_ in
        let chunk_text := join " " chunk_words in
        let chunks' := (chunks ++ [chunk_text])%list in
        if end_ >=? total_words then Some chunks'
        else words_loop fuel' c words (start + (chunk_size c - overlap c)) chunks'
      else Some chunks
  end.

(** The chunk cut at word position [start], as one iteration builds it. *)
Definition window (c : t) (words : list string) (start : Z) : string :=
  join " " (PySlice.slice words start
              (Z.min (start + chunk_size c) (Z.of_nat (length words)))).

(** One unit of fuel per word and one more is enough whenever the
    stride [chunk_size - overlap] is positive. *)
Definition chunk_by_words (c : t) (text : string) : option (list string) :=
  if is_empty text then Some []
  else
    let words := split text in
    words_loop (S (length words)) c words 0 [].

(** [ceil(a / b)] for a positive [b] *)
Definition ceil_div (a b : Z) : Z := (a + b - 1) / b.

(** The number of chunks announced for a text of [W] words. *)
Definition expected_chunks (c : t) (W : Z) : Z :=
  if W <=? chunk_size c then 1
  else ceil_div (Z.max (W - overlap c) 0) (chunk_size c - overlap c).

Definition is_sentence_end (ch : ascii) : bool :=
  (Ascii.eqb ch "." || Ascii.eqb ch "!" || Ascii.eqb ch "?")%bool.

(** [re.split(r'(?<=[.!?])\s+', text)] on characters.  [prev_end] tells
    whether the previous character is one of [.!?]; [in_sep] whether a
    separator is being consumed; [cur] is the piece being read. *)
Fixpoint sentence_pieces (cs : list ascii) (prev_end in_sep : bool)
         (cur : list ascii) : list (list ascii) :=
  match cs with
  | [] => [cur]
  | ch :: r =>
      if is_space ch then
        if in_sep then sentence_pieces r false true []
        else if prev_end then cur :: sentence_pieces r false true []
        else sentence_pieces r false false (cur ++ [ch])%list
      else sentence_pieces r (is_sentence_end ch) false (cur ++ [ch])%list
  end.

Definition split_sentences (text : string) : list string :=
  map str (sentence_pieces (chars text) false false []).

(** State of the packing loop: [chunks], [current_chunk],
    [current_word_count]. *)
Definition pack_state : Type := list string * list string * Z.

Definition pack_step (c : t) (st : pack_state) (sentence : string) : pack_state :=
  let '(chunks, current_chunk, current_word_count) := st in
  let sentence_words := split sentence in
  let sentence_word_count := Z.of_nat (length sentence_words) in
  if current_word_count + sentence_word_count <=? chunk_size c then
    (chunks, (current_chunk ++ [sentence])%list, current_word_count + sentence_word_count)
  else
    let chunks' := match current_chunk with
                   | [] => chunks
                   | _ => (chunks ++ [join " " current_chunk])%list
                   end in
    (chunks', [sentence], sentence_word_count).

Definition chunk_by_sentences (c : t) (text : string) : list string :=
  let sentences := split_sentences text in
  let '(chunks, current_chunk, _) := fold_left (pack_step c) sentences ([], [], 0) in
  match current_chunk with
  | [] => chunks
  | _ => (chunks ++ [join " " current_chunk])%list
  end.

(** The three heading alternatives of the section pattern, each tested
    as a look-ahead at the current position; [prev] is the character
    before it. *)
Definition word_of (o : option ascii) : bool :=
  match o with Some ch => is_word ch | None => false end.

(** [\b] between [prev] and [next] *)
Definition word_boundary (prev next : option ascii) : bool :=
  xorb (word_of prev) (word_of next).

(** [^] under [re.M] *)
Definition line_start (prev : option ascii) : bool :=
  match prev with
  | None => true
  | Some ch => Ascii.eqb ch "010"
  end.

Definition department_literal : list ascii := chars "Department of".

(** [\bDepartment of\b] *)
Definition department_heading (prev : option ascii) (rest : list ascii) : bool :=
  (word_boundary prev (head rest)
   && is_prefix department_literal rest
   && word_boundary (Some "f"%char) (head (skipn (length department_literal) rest)))%bool.

Fixpoint drop_digits (cs : list ascii) : list ascii :=
  match cs with
  | [] => []
  | ch :: r => if is_digit ch then drop_digits r else cs
  end.

(** [^\d+\.] *)
Definition numbered_heading (prev : option ascii) (rest : list ascii) : bool :=
  (line_start prev
   && match rest with
      | d :: r => is_digit d &&
                  match drop_digits r with
                  | ch :: _ => Ascii.eqb ch "."
                  | [] => false
                  end
      | [] => false
      end)%bool.

(** [[A-Z\s]{5,}\n] after the first capital: some line feed at offset
    [k >= 5] with only capitals and whitespace up to it. *)
Fixpoint caps_tail (cs : list ascii) (k : nat) : bool :=
  match cs with
  | [] => false
  | ch :: r =>
      if (is_upper ch || is_space ch)%bool then
        if (Ascii.eqb ch "010" && Nat.leb 5 k)%bool then true
        else caps_tail r (S k)
      else false
  end.

(** [\n[A-Z][A-Z\s]{5,}\n] *)
Definition caps_heading (rest : list ascii) : bool :=
  match rest with
  | nl :: u :: r => (Ascii.eqb nl "010" && is_upper u && caps_tail r 0)%bool
  | _ => false
  end.

Definition heading_here (prev : option ascii) (rest : list ascii) : bool :=
  (department_heading prev rest || numbered_heading prev rest
   || numbered_heading prev rest || caps_heading rest)%bool.

(** [re.split] on the zero-width section pattern: the text is cut at
    every position where the look-ahead succeeds, position 0 included. *)
Fixpoint section_pieces (prev : option ascii) (cs cur : list ascii)
  : list (list ascii) :=
  match cs with
  | [] => [cur]
  | ch :: r =>
      if heading_here prev cs then cur :: section_pieces (Some ch) r [ch]
      else section_pieces (Some ch) r (cur ++ [ch])%list
  end.

Definition split_sections (text : string) : list string :=
  map str (section_pieces None (chars text) []).

Definition chunk_by_sections (c : t) (text : string) : list string :=
  let sections := split_sections text in
  match sections with
  | [] | [_] => chunk_by_sentences c text
  | _ =>
      flat_map (fun sec =>
                  let sec := strip sec in
                  if is_empty sec then [] else chunk_by_sentences c sec)
               sections
  end.

(** The module-level [chunk_text] *)
Definition chunk_text (text : string) (chunk_size overlap : Z) : list string :=
  chunk_by_sections (mk chunk_size overlap) text.

End TextChunker.

(* ===================================================================== *)
(** * Values, exceptions and external calls *)
(* ===================================================================== *)

Module Py.

(** The scalar values stored in metadata dictionaries. *)
Inductive value :=
| VBool (b : bool)
| VInt (z : Z)
| VFloat (q : Q)
| VStr (s : string).

Abbreviation dict := (gmap string value).

(** [d.get(k, default)] *)
Definition get (d : dict) (k : string) (default : value) : value :=
  match d !! k with
  | Some x => x
  | None => default
  end.

(** [str(n)] for a natural number *)
Definition str_of_nat (n : nat) : string :=
  NilZero.string_of_uint (Nat.to_uint n).

(** An exception, identified with its message [str(e)]. *)
Inductive exn := Exception (msg : string).

Definition str_of_exn (e : exn) : string :=
  match e with Exception msg => msg end.

Inductive result (A : Type) :=
| Ok (a : A)
| Raise (e : exn).
Arguments Ok {A} a.
Arguments Raise {A} e.

End Py.

(** The query side of [backend/preprocessing/vector_store.py] *)
Module VectorStoreTypes.

Definition embedding : Type := list Q.

(** The keyword arguments handed to [collection.query] *)
Record query_params := mk_params {
  n_results : Z;
  query_embeddings : option (list embedding);
  query_texts : option (list string);
  where_ : option Py.dict
}.

(** What [collection.query] returns for the single query: the inner
    lists [results[key][0]]; [None] stands for a falsy [results[key]]. *)
Record query_result := mk_result {
  documents : list string;
  metadatas : option (list Py.dict);
  ids : option (list string);
  distances : option (list Q)
}.

End VectorStoreTypes.

(** Computations that may raise and that call the external services
  (embedding model, vector index, generation model).  Every external call
  is recorded in a trace. *)
Module Eff.
Import Py VectorStoreTypes.

Inductive event :=
| EvEmbed (text : string)
| EvQuery (p : query_params)
| EvGenerate (prompt : string) (max_tokens : Z) (temperature : Q).

Definition trace : Type := list event.

Definition M (A : Type) : Type := trace -> trace * result A.

Definition ret {A} (a : A) : M A := fun tr => (tr, Ok a).

Definition raise {A} (e : exn) : M A := fun tr => (tr, Raise e).

Definition bind {A B} (m : M A) (k : A -> M B) : M B :=
  fun tr =>
    match m tr with
    | (tr', Ok a) => k a tr'
    | (tr', Raise e) => (tr', Raise e)
    end.

(** [try: m  except Exception as e: h e] *)
Definition try_except {A} (m : M A) (h : exn -> M A) : M A :=
  fun tr =>
    match m tr with
    | (tr', Ok a) => (tr', Ok a)
    | (tr', Raise e) => h e tr'
    end.

(** An external call with outcome [r], recorded as [ev]. *)
Definition call {A} (ev : event) (r : result A) : M A :=
  fun tr => (tr ++ [ev], r).

Definition of_option {A} (o : option A) (e : exn) : M A :=
  match o with
  | Some a => ret a
  | None => raise e
  end.

Fixpoint mapM {A B} (f : A -> M B) (l : list A) : M (list B) :=
  match l with
  | [] => ret []
  | x :: r => bind (f x) (fun y => bind (mapM f r) (fun ys => ret (y :: ys)))
  end.

End Eff.

#[export] Instance M_ret : MRet Eff.M := @Eff.ret.
#[export] Instance M_bind : MBind Eff.M := fun A B k m => Eff.bind m k.

Module VectorStore.
Import PyStr Py VectorStoreTypes Eff.

(** The persistent collection, seen through its [query] method. *)
Record t := mk {
  collection_query : query_params -> result query_result
}.

(** [if where:] holds of a non-empty dictionary only. *)
Definition truthy_filter (where_arg : option dict) : option dict :=
  match where_arg with
  | Some d => if decide (d = ∅) then None else Some d
  | None => None
  end.

(** The keyword arguments [query] builds. *)
Definition build_params (query_text : string) (n_results : Z)
           (where_arg : option dict) (query_embeddings : option embedding)
  : query_params :=
  match query_embeddings with
  | Some v => mk_params n_results (Some [v]) None (truthy_filter where_arg)
  | None => mk_params n_results None (Some [query_text]) (truthy_filter where_arg)
  end.

(** [VectorStore.query]; its handler logs and re-raises. *)
Definition query (self : t) (query_text : string) (n_results : Z)
           (where_arg : option dict) (query_embeddings : option embedding)
  : M query_result :=
  let query_params := build_params query_text n_results where_arg query_embeddings in
  try_except
    (call (EvQuery query_params) (collection_query self query_params))
    (fun e => raise e).

End VectorStore.

(* ===================================================================== *)
(** * backend/rag/retriever.py *)
(* ===================================================================== *)

Module Retriever.
Import PyStr Py VectorStoreTypes Eff.

Record t := mk {
  vector_store : VectorStore.t;
  (** [self.embedder.embed_text] *)
  embed_text : string -> result embedding;
  top_k : Z;
  (** the module-level switch read from the environment, [False] unless
      set *)
  APPLY_METADATA_FILTER : bool
}.

(** A retrieved document: the dictionary with keys [content],
    [metadata], [id], [distance].  The two fields read back with
    [doc.get(key, default)] are optional. *)
Record doc := mk_doc {
  content : string;
  metadata : option dict;
  id : string;
  distance : option Q
}.

Definition _expand_query (query : string) : string :=
  let query_lower := lower query in
  let e1 := if (contains "admission" query_lower || contains "requirement" query_lower
                || contains "eligibility" query_lower)%bool
            then ["eligibility criteria admission requirements"] else [] in
  let e2 := if (contains "faculty" query_lower || contains "professor" query_lower
                || contains "staff" query_lower)%bool
            then ["faculty members professors"] else [] in
  let e3 := if (contains "program" query_lower || contains "degree" query_lower)%bool
            then ["offered programs degrees"] else [] in
  let expansions := e1 ++ e2 ++ e3 in
  match expansions with
  | [] => query
  | _ => (query ++ " " ++ join " " expansions)%string
  end.

Definition eligibility_terms : list string :=
  ["admission"; "requirement"; "eligibility"; "criteria"].
Definition faculty_terms : list string :=
  ["faculty"; "professor"; "staff"; "dean"; "chairman"].
Definition programs_terms : list string :=
  ["program"; "degree"; "offered"].

Definition flag (key : string) : dict := {[ key := VBool true ]}.

Definition _get_metadata_filter (query : string) : option dict :=
  let query_lower := lower query in
  if any_in eligibility_terms query_lower then Some (flag "has_eligibility")
  else if any_in faculty_terms query_lower then Some (flag "has_faculty")
  else if any_in programs_terms query_lower then Some (flag "has_programs")
  else None.

(** The filter [retrieve] hands to the index. *)
Definition metadata_filter_for (self : t) (query : string) : option dict :=
  if APPLY_METADATA_FILTER self then _get_metadata_filter query else None.

Definition index_error : exn := Exception "list index out of range".

(** One iteration of the loop building [documents]. *)
Definition assemble_doc (results : query_result) (i : nat) (text : string) : M doc :=
  meta ← match metadatas results with
          | Some l => of_option (nth_error l i) index_error
          | None => ret ∅
          end;
  ident ← match ids results with
           | Some l => of_option (nth_error l i) index_error
           | None => ret ("doc_" ++ str_of_nat i)%string
           end;
  dist ← match distances results with
          | Some l => of_option (nth_error l i) index_error
          | None => ret 0%Q
          end;
  ret (mk_doc text (Some meta) ident (Some dist)).

Fixpoint assemble_from (results : query_result) (i : nat) (texts : list string)
  : M (list doc) :=
  match texts with
  | [] => ret []
  | text :: r =>
      d ← assemble_doc results i text;
      ds ← assemble_from results (S i) r;
      ret (d :: ds)
  end.

(** [top_k or self.top_k] *)
Definition or_default (top_k : option Z) (default : Z) : Z :=
  match top_k with
  | Some k => if k =? 0 then default else k
  | None => default
  end.

Definition retrieve (self : t) (query : string) (top_k_arg : option Z) : M (list doc) :=
  let k := or_default top_k_arg (top_k self) in
  try_except
    (let expanded_query := _expand_query query in
     let metadata_filter := metadata_filter_for self query in
     query_embedding ←
       try_except
         (v ← call (EvEmbed expanded_query) (embed_text self expanded_query);
          ret (Some v))
         (fun _ => ret None);
     results ← VectorStore.query (vector_store self) expanded_query k
                                  metadata_filter query_embedding;
     assemble_from results 0 (documents results))
    (fun e => raise e).

(** The index query with keyword arguments [p] followed by the assembly of
    the documents: what remains of [retrieve] once the query vector is
    settled. *)
Definition query_and_assemble (self : t) (p : query_params) : M (list doc) :=
  results ← call (EvQuery p) (VectorStore.collection_query (vector_store self) p);
  assemble_from results 0 (documents results).

Definition context_block (i : nat) (d : doc) : string :=
  ("[Context " ++ str_of_nat i ++ "]" ++ String "010" "" ++ content d
     ++ String "010" "")%string.

Fixpoint context_blocks (i : nat) (ds : list doc) : list string :=
  match ds with
  | [] => []
  | d :: r => context_block i d :: context_blocks (S i) r
  end.

Definition format_context (documents : list doc) : string :=
  match documents with
  | [] => ""
  | _ => join (String "010" "") (context_blocks 1 documents)
  end.

Definition retrieve_and_format (self : t) (query : string) (top_k_arg : option Z)
  : M (string * list doc) :=
  documents ← retrieve self query top_k_arg;
  ret (format_context documents, documents).

End Retriever.

(* ===================================================================== *)
(** * backend/rag/llm_client.py *)
(* ===================================================================== *)

Module LLMClient.
Import Py Eff.

(** The generation backend is opaque: a function from the prompt and the
    sampling parameters to a text or an exception. *)
Record t := mk {
  backend : string -> Z -> Q -> result string
}.

Definition nl : string := String "010" "".
Definition dquote : string := String (ascii_of_nat 34) "".

Definition create_prompt (context question : string) : string :=
  ("You are a precise information assistant for UET (University of Engineering and Technology)."
   ++ nl ++ nl ++ "CONTEXT:" ++ nl ++ context ++ nl ++ nl
   ++ "QUESTION: " ++ question ++ nl ++ nl
   ++ "INSTRUCTIONS:" ++ nl
   ++ "- Answer using ONLY the exact information from the CONTEXT above" ++ nl
   ++ "- Quote specific details from the context when possible" ++ nl
   ++ "- If the context doesn't contain the answer, say "
   ++ dquote ++ "The provided context does not contain this information."
   ++ dquote ++ nl
   ++ "- Do NOT make up names, numbers, or any other details" ++ nl
   ++ "- Be concise and accurate" ++ nl ++ nl
   ++ "ANSWER:")%string.

(** [generate]; its handler logs and re-raises. *)
Definition generate (self : t) (prompt : string) (max_tokens : Z) (temperature : Q)
  : M string :=
  try_except
    (call (EvGenerate prompt max_tokens temperature)
          (backend self prompt max_tokens temperature))
    (fun e => raise e).

End LLMClient.

(* ===================================================================== *)
(** * backend/rag/answer_generator.py *)
(* ===================================================================== *)

Module AnswerGenerator.
Import PyStr Py Eff.

Record t := mk {
  retriever : Retriever.t;
  llm_client : LLMClient.t;
  scope_validator : ScopeValidator.t
}.

Record source_record := mk_source {
  chunk_id : value;
  source : value;
  relevance_score : Q
}.

(** The dictionary [generate_answer] returns. *)
Record answer_dict := mk_answer {
  answer : string;
  citations : list string;
  sources : list source_record;
  metadata : dict
}.

Definition NO_CONTEXT_MESSAGE : string :=
  "I couldn't find relevant information in the UET documents to answer your question.".

Definition ERROR_MESSAGE : string :=
  "An error occurred while processing your question. Please try again.".

(** Truth value of a float: [if dist] fails for zero only. *)
Definition truthy (q : Q) : bool := negb (Qeq_bool q 0).

(** [float(1 - dist) if dist else 0.0] with [dist = doc.get('distance', 0.0)] *)
Definition relevance_of (d : Retriever.doc) : Q :=
  let dist := match Retriever.distance d with Some q => q | None => 0%Q end in
  if truthy dist then (1 - dist)%Q else 0%Q.

(** One iteration of the loop building [sources]. *)
Definition source_of (d : Retriever.doc) : source_record :=
  let meta := match Retriever.metadata d with Some m => m | None => ∅ end in
  mk_source (get meta "chunk_id" (VInt 0))
            (get meta "source" (VStr "unknown"))
            (relevance_of d).

Definition refused_answer (guardrail_response question : string) : answer_dict :=
  mk_answer guardrail_response [] []
    (<["guardrail_triggered" := VBool true]>
       (<["question" := VStr question]> ∅)).

Definition no_context_answer (question : string) : answer_dict :=
  mk_answer NO_CONTEXT_MESSAGE [] []
    (<["guardrail_triggered" := VBool false]>
       (<["retrieval_count" := VInt 0]>
          (<["question" := VStr question]> ∅))).

Definition success_answer (text question : string) (top_k : Z)
           (retrieved_data : list Retriever.doc) : answer_dict :=
  let citations := map Retriever.content retrieved_data in
  let sources := map source_of retrieved_data in
  mk_answer text citations sources
    (<["guardrail_triggered" := VBool false]>
       (<["retrieval_count" := VInt (Z.of_nat (length citations))]>
          (<["question" := VStr question]>
             (<["top_k" := VInt top_k]> ∅)))).

Definition error_answer (e : exn) (question : string) : answer_dict :=
  mk_answer ERROR_MESSAGE [] []
    (<["error" := VStr (str_of_exn e)]>
       (<["question" := VStr question]> ∅)).

(** The body of the [try] block of [generate_answer]. *)
Definition generate_answer_body (self : t) (question : string) (top_k max_tokens : Z)
           (temperature : Q) : M answer_dict :=
  let '(is_valid, guardrail_response) :=
    ScopeValidator.validate_and_respond (scope_validator self) question in
  if negb is_valid then ret (refused_answer guardrail_response question)
  else
    '(context, retrieved_data) ←
      Retriever.retrieve_and_format (retriever self) question (Some top_k);
    if is_empty context then ret (no_context_answer question)
    else
      let prompt := LLMClient.create_prompt context question in
      text ← LLMClient.generate (llm_client self) prompt max_tokens temperature;
      ret (success_answer text question top_k retrieved_data).

Definition generate_answer (self : t) (question : string) (top_k max_tokens : Z)
           (temperature : Q) : M answer_dict :=
  try_except
    (generate_answer_body self question top_k max_tokens temperature)
    (fun e => ret (error_answer e question)).

(** The state machine [generate_answer] implements, one case per
    terminal state: REFUSED, ERROR (retrieval), NO_CONTEXT, ERROR
    (generation), SUCCESS. *)
Definition run_by_branch (self : t) (question : string) (top_k max_tokens : Z)
           (temperature : Q) (tr : trace) : trace * result answer_dict :=
  if ScopeValidator.accepted (scope_validator self) question then
    match Retriever.retrieve_and_format (retriever self) question (Some top_k) tr with
    | (tr1, Raise e) => (tr1, Ok (error_answer e question))
    | (tr1, Ok (context, retrieved_data)) =>
        if is_empty context then (tr1, Ok (no_context_answer question))
        else
          match LLMClient.generate (llm_client self)
                  (LLMClient.create_prompt context question)
                  max_tokens temperature tr1 with
          | (tr2, Raise e) => (tr2, Ok (error_answer e question))
          | (tr2, Ok text) =>
              (tr2, Ok (success_answer text question top_k retrieved_data))
          end
    end
  else (tr, Ok (refused_answer Config.GUARDRAIL_MESSAGE question)).

(** An answer whose metadata has the four keys of the data model. *)
Definition has_all_keys (a : answer_dict) : Prop :=
  is_Some (metadata a !! "guardrail_triggered")
  /\ is_Some (metadata a !! "retrieval_count")
  /\ is_Some (metadata a !! "question")
  /\ is_Some (metadata a !! "top_k").

(** [generate_answer_batch], with the keyword arguments spelled out *)
Definition generate_answer_batch (self : t) (questions : list string)
           (top_k max_tokens : Z) (temperature : Q) : M (list answer_dict) :=
  mapM (fun question => generate_answer self question top_k max_tokens temperature)
       questions.

End AnswerGenerator.

(* ===================================================================== *)
(** * Concrete services used in examples *)
(* ===================================================================== *)

Module Examples.
Import Py VectorStoreTypes.

Definition cgpa_sentence : string :=
  "Admission requirements include a minimum CGPA of 3.0.".

Definition chunk_meta : dict :=
  <["chunk_id" := VInt 0]> (<["source" := VStr "uet_document"]> ∅).

(** An index holding one chunk, returned at distance [d] whatever the
    query. *)
Definition one_chunk_index (d : Q) : VectorStore.t :=
  VectorStore.mk (fun _ =>
    Ok (mk_result [cgpa_sentence] (Some [chunk_meta]) (Some ["chunk_0"]) (Some [d]))).

Definition empty_index : VectorStore.t :=
  VectorStore.mk (fun _ => Ok (mk_result [] (Some []) (Some []) (Some []))).

Definition working_embedder (text : string) : result embedding := Ok [1%Q; 0%Q].

Definition failing_embedder (text : string) : result embedding :=
  Raise (Exception "embedding model unavailable").

Definition echo_llm : LLMClient.t :=
  LLMClient.mk (fun _ _ _ => Ok "The minimum CGPA is 3.0.").

Definition failing_llm : LLMClient.t :=
  LLMClient.mk (fun _ _ _ => Raise (Exception "CUDA out of memory")).

Definition retriever_with (embed : string -> result embedding) (d : Q) : Retriever.t :=
  Retriever.mk (one_chunk_index d) embed Config.TOP_K_RETRIEVAL false.

Definition default_validator : ScopeValidator.t :=
  ScopeValidator.init None Config.DEFAULT_THRESHOLD.

Definition generator (r : Retriever.t) (llm : LLMClient.t) : AnswerGenerator.t :=
  AnswerGenerator.mk r llm default_validator.

Definition weather_question : string := "What is the weather today?".
Definition admission_question : string := "What are the admission requirements?".

End Examples.

(** The measures the packing loop of [chunk_by_sentences] works with. *)
Module SentencePacking.
Import PyStr TextChunker.

(** [len(sentence.split())] *)
Definition word_count (sentence : string) : Z := Z.of_nat (length (split sentence)).

(** The running [current_word_count] of a group of sentences. *)
Definition total_words (group : list string) : Z :=
  fold_right (fun sentence n => word_count sentence + n) 0 group.

(** A group the loop may close: within [chunk_size], or one sentence. *)
Definition sized (c : t) (group : list string) : Prop :=
  total_words group <= chunk_size c \/ length group = 1%nat.

(** The characters of a text other than whitespace, in order. *)
Definition ink (s : string) : list ascii := List.filter not_space (chars s).

(** The chunks closed so far, followed by the open one if any. *)
Definition closing (groups : list (list string)) (cur : list string)
  : list (list string) :=
  match cur with
  | [] => groups
  | _ => groups ++ [cur]
  end.

End SentencePacking.

(** The assembly loop of [Retriever.retrieve] without its effects: what
    each position of the index result contributes. *)
Module Assembly.
Import Py VectorStoreTypes Retriever.

(** [results[key][0][i] if results[key] else default]; [None] when the
    index is out of range. *)
Definition field_at {A : Type} (field : option (list A)) (i : nat) (default : A)
  : option A :=
  match field with
  | Some l => nth_error l i
  | None => Some default
  end.

Definition doc_at (results : query_result) (i : nat) (text : string) : option doc :=
  match field_at (metadatas results) i ∅,
        field_at (ids results) i ("doc_" ++ str_of_nat i)%string,
        field_at (distances results) i 0%Q with
  | Some meta, Some ident, Some dist => Some (mk_doc text (Some meta) ident (Some dist))
  | _, _, _ => None
  end.

Fixpoint docs_from (results : query_result) (i : nat) (texts : list string)
  : option (list doc) :=
  match texts with
  | [] => Some []
  | text :: r =>
      match doc_at results i text, docs_from results (S i) r with
      | Some d, Some ds => Some (d :: ds)
      | _, _ => None
      end
  end.

(** A result list, when present, has at least [n] entries. *)
Definition covers {A : Type} (field : option (list A)) (n : nat) : bool :=
  match field with
  | Some l => Nat.leb n (length l)
  | None => true
  end.

Definition complete (results : query_result) (n : nat) : bool :=
  (covers (metadatas results) n && covers (ids results) n
   && covers (distances results) n)%bool.

(** The keyword arguments [retrieve] hands to the index for a question. *)
Definition params_for (self : t) (query : string) (top_k_arg : option Z) : query_params :=
  VectorStore.build_params (_expand_query query)
    (or_default top_k_arg (top_k self))
    (metadata_filter_for self query)
    (match embed_text self (_expand_query query) with
     | Ok v => Some v
     | Raise _ => None
     end).

End Assembly.

(** The answer to one question, asked on its own. *)
Module SingleAnswer.
Import Py Eff AnswerGenerator.

Definition answer_to (self : t) (top_k max_tokens : Z) (temperature : Q)
           (question : string) : answer_dict :=
  match snd (generate_answer self question top_k max_tokens temperature []) with
  | Ok a => a
  | Raise e => error_answer e question
  end.

End SingleAnswer.

(* ===================================================================== *)
(** * Ingestion: chunk metadata, ids and the arguments of [collection.add] *)
(* ===================================================================== *)

(** [TextChunker.extract_metadata] of [backend/preprocessing/chunker.py] *)
Module ChunkMetadata.
Import PyStr Py.

(** The class [[a-z\s&]] *)
Definition department_char (ch : ascii) : bool :=
  (is_lower ch || is_space ch || Ascii.eqb ch "&")%bool.

(** The longest prefix of characters satisfying [p], and the rest. *)
Fixpoint span (p : ascii -> bool) (cs : list ascii) : list ascii * list ascii :=
  match cs with
  | [] => ([], [])
  | ch :: r =>
      if p ch then let '(run, rest) := span p r in (ch :: run, rest)
      else ([], cs)
  end.

Definition department_prefix : list ascii := chars "Department of ".

Definition department_suffixes : list string :=
  ["Engineering"; "Science"; "Management"].

(** The first of the alternatives [Engineering|Science|Management] that
    [rest] starts with. *)
Definition suffix_at (rest : list ascii) : option (list ascii) :=
  List.find (fun w => is_prefix w rest) (map chars department_suffixes).

(** A match of
    [Department of ([A-Z][a-z\s&]+(?:Engineering|Science|Management))]
    at the head of [cs]; the result is group 1.  The three alternatives
    start with a capital, which the class excludes, so the run can only be
    the longest one. *)
Definition department_at (cs : list ascii) : option (list ascii) :=
  if is_prefix department_prefix cs then
    match skipn (length department_prefix) cs with
    | u :: r =>
        if is_upper u then
          match span department_char r with
          | ([], _) => None
          | (run, rest) =>
              match suffix_at rest with
              | Some w => Some (u :: run ++ w)
              | None => None
              end
          end
        else None
    | [] => None
    end
  else None.

(** [re.search]: the leftmost position with a match. *)
Fixpoint find_department (cs : list ascii) : option (list ascii) :=
  match department_at cs with
  | Some g => Some g
  | None =>
      match cs with
      | [] => None
      | _ :: r => find_department r
      end
  end.

Definition flags (chunk : string) : dict :=
  let text := lower chunk in
  <["has_eligibility" := VBool (contains "eligibility" text || contains "admission" text
                                || contains "requirement" text)]>
    (<["has_programs" := VBool (contains "offered programs" text
                                || contains "programs:" text)]>
       (<["has_faculty" := VBool (contains "faculty" text || contains "professor" text
                                  || contains "dean" text)]>
          (<["has_introduction" := VBool (contains "introduction:" text
                                          || contains "established" text)]> ∅))).

Definition extract_metadata (chunk : string) : dict :=
  match find_department (chars chunk) with
  | Some g => <["department" := VStr (strip (str g))]> (flags chunk)
  | None => flags chunk
  end.

End ChunkMetadata.

(** The data [run_preprocessing_pipeline] prepares for the index
    ([backend/preprocessing/run_pipeline.py]) and the keyword arguments
    [VectorStore.add_documents] builds. *)
Module Pipeline.
Import PyStr Py VectorStoreTypes.

(** The body of the loop over [enumerate(chunks)] *)
Definition chunk_metadata (i : nat) (chunk : string) : dict :=
  <["source" := VStr "uet_document"]>
    (<["chunk_id" := VInt (Z.of_nat i)]> (ChunkMetadata.extract_metadata chunk)).

Fixpoint metadatas_from (i : nat) (chunks : list string) : list dict :=
  match chunks with
  | [] => []
  | chunk :: r => chunk_metadata i chunk :: metadatas_from (S i) r
  end.

(** [[f"{prefix}{i}" for i in range(n)]] *)
Definition numbered (prefix : string) (n : nat) : list string :=
  map (fun i => (prefix ++ str_of_nat i)%string) (seq 0 n).

Definition chunk_ids (chunks : list string) : list string :=
  numbered "chunk_" (length chunks).

Record add_kwargs := mk_add {
  add_documents_arg : list string;
  add_metadatas : list dict;
  add_ids : list string;
  add_embeddings : option (list embedding)
}.

Definition default_metadata (i : nat) : dict :=
  <["source" := VStr "uet_document"]> (<["chunk_id" := VInt (Z.of_nat i)]> ∅).

(** The keyword arguments of [collection.add] in
    [VectorStore.add_documents]: missing ids and metadatas get their
    defaults; embeddings are passed only when given. *)
Definition build_add_kwargs (documents : list string)
           (metadatas : option (list dict)) (ids : option (list string))
           (embeddings : option (list embedding)) : add_kwargs :=
  let ids' := match ids with
              | Some l => l
              | None => numbered "doc_" (length documents)
              end in
  let metadatas' := match metadatas with
                    | Some l => l
                    | None => map default_metadata (seq 0 (length documents))
                    end in
  mk_add documents metadatas' ids' embeddings.

(** What the pipeline hands to [add_documents]. *)
Definition pipeline_kwargs (chunks : list string) (embeddings : list embedding)
  : add_kwargs :=
  build_add_kwargs chunks (Some (metadatas_from 0 chunks)) (Some (chunk_ids chunks))
                   (Some embeddings).

End Pipeline.

(* ===================================================================== *)
(** * Facts about the string primitives *)
(* ===================================================================== *)

Module StringFacts.
Import PyStr.

Lemma chars_str (l : list ascii) : chars (str l) = l.
Proof. apply list_ascii_of_string_of_list_ascii. Qed.

Lemma str_chars (s : string) : str (chars s) = s.
Proof. apply string_of_list_ascii_of_string. Qed.

Lemma is_empty_str (l : list ascii) : is_empty (str l) = true <-> l = [].
Proof. destruct l; simpl; split; congruence. Qed.

Lemma is_empty_chars (s : string) : is_empty s = true <-> chars s = [].
Proof. destruct s; simpl; split; congruence. Qed.

Lemma space_not_word (c : ascii) : is_space c = true -> is_word c = false.
Proof.
  destruct c as [[] [] [] [] [] [] [] []]; vm_compute; congruence.
Qed.

Lemma lower_char_word (c : ascii) : is_word (lower_char c) = is_word c.
Proof.
  destruct c as [[] [] [] [] [] [] [] []]; vm_compute; reflexivity.
Qed.

Lemma chars_lower (s : string) : chars (lower s) = map lower_char (chars s).
Proof. unfold lower. apply chars_str. Qed.

Lemma drop_space_nil (cs : list ascii) :
  drop_space cs = [] <-> forallb is_space cs = true.
Proof.
  induction cs as [|c r IH]; simpl; [tauto|].
  destruct (is_space c); simpl; [exact IH|]. split; congruence.
Qed.

Lemma drop_space_idem (cs : list ascii) : drop_space (drop_space cs) = drop_space cs.
Proof.
  induction cs as [|c r IH]; simpl; [reflexivity|].
  destruct (is_space c) eqn:E; [exact IH|]. simpl. now rewrite E.
Qed.

Lemma forallb_rev {A} (p : A -> bool) (l : list A) :
  forallb p (rev l) = forallb p l.
Proof.
  induction l as [|x r IH]; simpl; [reflexivity|].
  rewrite forallb_app, IH. simpl. rewrite andb_true_r. apply andb_comm.
Qed.

(** [s.strip()] is empty exactly for the strings made of whitespace only. *)
Lemma strip_empty (s : string) :
  is_empty (strip s) = true <-> forallb is_space (chars s) = true.
Proof.
  unfold strip. rewrite is_empty_str. split.
  - intros H. apply (f_equal (@rev ascii)) in H. rewrite rev_involutive in H.
    simpl in H. apply drop_space_nil in H. rewrite forallb_rev in H.
    apply drop_space_nil in H. rewrite drop_space_idem in H.
    now apply drop_space_nil.
  - intros H. apply drop_space_nil in H. rewrite H. reflexivity.
Qed.

Lemma blank_test (s : string) :
  (is_empty s || is_empty (strip s))%bool = true
  <-> forallb is_space (chars s) = true.
Proof.
  rewrite orb_true_iff, strip_empty, is_empty_chars. split.
  - intros [H|H]; [now rewrite H | exact H].
  - auto.
Qed.

(** A run is reported as soon as one character satisfies [p]. *)
Lemma runs_cur_nonnil (p : ascii -> bool) (cs cur : list ascii) :
  cur <> [] -> runs p cs cur <> [].
Proof.
  revert cur. induction cs as [|c r IH]; intros cur Hc; simpl.
  - destruct cur; congruence.
  - destruct (p c).
    + apply IH. destruct cur; discriminate.
    + destruct cur; congruence.
Qed.

Lemma runs_nil_iff (p : ascii -> bool) (cs : list ascii) :
  runs p cs [] = [] <-> existsb p cs = false.
Proof.
  induction cs as [|c r IH]; simpl; [tauto|].
  destruct (p c) eqn:E; simpl.
  - split; [|discriminate]. intros H. exfalso.
    revert H. apply runs_cur_nonnil. discriminate.
  - exact IH.
Qed.

Lemma is_prefix_incl (a b : list ascii) : is_prefix a b = true -> incl a b.
Proof.
  revert b. induction a as [|x a IH]; intros b H; [intros y []|].
  destruct b as [|y b]; simpl in H; [discriminate|].
  apply andb_true_iff in H as [Hxy Hp]. apply Ascii.eqb_eq in Hxy. subst y.
  intros z [<-|Hz]; [now left|]. right. now apply (IH b).
Qed.

(** A substring contributes only characters of the string it occurs in. *)
Lemma contains_chars_incl (a b : list ascii) :
  contains_chars a b = true -> incl a b.
Proof.
  induction b as [|y b IH]; simpl; intros H.
  - rewrite orb_false_r in H. now apply is_prefix_incl.
  - apply orb_true_iff in H as [H|H]; [now apply is_prefix_incl|].
    intros z Hz. right. now apply IH.
Qed.

Lemma existsb_incl {A} (p : A -> bool) (a b : list A) :
  incl a b -> existsb p a = true -> existsb p b = true.
Proof.
  intros Hi H. apply existsb_exists in H as (x & Hx & Hp).
  apply existsb_exists. exists x. split; [now apply Hi | exact Hp].
Qed.

Lemma existsb_forallb_space (cs : list ascii) :
  forallb is_space cs = true -> existsb is_word cs = false.
Proof.
  induction cs as [|c r IH]; simpl; [reflexivity|].
  intros H. apply andb_true_iff in H as [Hc Hr].
  rewrite (space_not_word c Hc), (IH Hr). reflexivity.
Qed.

Lemma existsb_word_lower (cs : list ascii) :
  existsb is_word (map lower_char cs) = existsb is_word cs.
Proof.
  induction cs as [|c r IH]; simpl; [reflexivity|].
  now rewrite lower_char_word, IH.
Qed.

End StringFacts.

(* ===================================================================== *)
(** * The scope gate *)
(* ===================================================================== *)

Module ScopeGate.
Import PyStr StringFacts ScopeValidator.

Lemma init_consistent (kws : option (list string)) (th : Q) : consistent (init kws th).
Proof. reflexivity. Qed.

Lemma add_keywords_consistent (v : t) (new : list string) :
  consistent (add_keywords v new).
Proof. reflexivity. Qed.

Lemma distinct_NoDup (l : list string) : distinct l = true -> List.NoDup l.
Proof.
  induction l as [|x r IH]; simpl; intros H; constructor.
  - apply andb_true_iff in H as [H _]. apply negb_true_iff in H.
    intros Hin. apply not_true_iff_false in H. apply H.
    apply existsb_exists. exists x. split; [exact Hin | apply String.eqb_refl].
  - apply andb_true_iff in H as [_ H]. now apply IH.
Qed.

(** On a list without repetition the matches are counted once each. *)
Lemma matched_count_filter (v : t) (question : string) :
  distinct (keywords_lower v) = true ->
  matched_keyword_count v question = length (keyword_matches v (lower question)).
Proof.
  intros H. unfold matched_keyword_count, keyword_matches.
  rewrite nodup_fixed_point; [reflexivity|].
  apply List.NoDup_filter. now apply distinct_NoDup.
Qed.

(** Without a word character in the question no keyword with a word
    character matches. *)
Lemma no_match_without_word (v : t) (ql : string) :
  forallb has_word_char (keywords_lower v) = true ->
  existsb is_word (chars ql) = false ->
  keyword_matches v ql = [].
Proof.
  intros Hk Hq. unfold keyword_matches.
  induction (keywords_lower v) as [|k r IH]; simpl; [reflexivity|].
  simpl in Hk. apply andb_true_iff in Hk as [Hk Hr].
  destruct (contains k ql) eqn:E; [|now apply IH].
  exfalso. apply contains_chars_incl in E.
  apply (existsb_incl is_word _ _ E) in Hk. congruence.
Qed.

Lemma token_count_zero (question : string) :
  token_count question = 0%nat <-> existsb is_word (chars question) = false.
Proof.
  unfold token_count, findall_words. rewrite length_map, length_zero_iff_nil.
  rewrite runs_nil_iff, chars_lower. now rewrite existsb_word_lower.
Qed.

Lemma blank_no_word (question : string) :
  blank question = true -> existsb is_word (chars question) = false.
Proof. apply existsb_forallb_space. Qed.

(** The result of [is_department_related] on the three paths of the code. *)
Lemma classify_blank (v : t) (question : string) :
  blank question = true ->
  is_department_related v question = (false, 0%Q, EmptyQuestion).
Proof.
  intros H. unfold is_department_related.
  apply blank_test in H. now rewrite H.
Qed.

Lemma classify_no_token (v : t) (question : string) :
  blank question = false -> token_count question = 0%nat ->
  is_department_related v question = (false, 0%Q, NoValidWords).
Proof.
  intros Hb Ht. unfold is_department_related.
  destruct (is_empty question || is_empty (strip question))%bool eqn:E.
  - apply blank_test in E. unfold blank in Hb. congruence.
  - unfold token_count in Ht. apply length_zero_iff_nil in Ht. now rewrite Ht.
Qed.

Lemma classify_tokens (v : t) (question : string) :
  blank question = false -> token_count question <> 0%nat ->
  let matches := keyword_matches v (lower question) in
  accepted v question
  = (Qle_bool (threshold v) (ratio (length matches) (token_count question))
     || Nat.leb 2 (length matches))%bool
  /\ score v question = ratio (length matches) (token_count question).
Proof.
  intros Hb Ht. unfold accepted, score, is_department_related.
  destruct (is_empty question || is_empty (strip question))%bool eqn:E.
  - apply blank_test in E. unfold blank in Hb. congruence.
  - unfold token_count in *.
    destruct (findall_words (lower question)) eqn:W; [simpl in Ht; congruence|].
    simpl. split; reflexivity.
Qed.

(** C5, as the code has it: the score is the number of configured
    keyword entries that occur in the lower-cased question, an entry listed
    twice counting twice, over the number of word tokens (0 without tokens);
    the question is accepted when it has a token and the score reaches the
    threshold or at least two entries match; blank input is rejected with
    score 0.  When no keyword is listed twice the entries counted are the
    distinct keywords, and with a configuration like the shipped one (no
    repetition, a word character in every keyword, positive threshold) the
    token condition is implied, so two keyword hits always accept. *)
Theorem scope_gate_classification (v : t) (question : string) :
  let hits := length (keyword_matches v (lower question)) in
  let n := token_count question in
  score v question = (if Nat.eqb n 0 then 0%Q else ratio hits n)
  /\ accepted v question
     = (negb (Nat.eqb n 0)
        && (Qle_bool (threshold v) (score v question) || Nat.leb 2 hits))%bool
  /\ (blank question = true ->
      accepted v question = false /\ score v question = 0%Q)
  /\ ((2 <= hits)%nat -> n <> 0%nat -> accepted v question = true)
  /\ (distinct (keywords_lower v) = true ->
      hits = matched_keyword_count v question)
  /\ (well_configured v = true ->
      let m := matched_keyword_count v question in
      score v question = (if Nat.eqb n 0 then 0%Q else ratio m n)
      /\ accepted v question
         = (Qle_bool (threshold v) (score v question) || Nat.leb 2 m)%bool
      /\ ((2 <= m)%nat -> accepted v question = true)).
Proof.
  intros hits n.
  assert (Hblank : blank question = true ->
                   accepted v question = false /\ score v question = 0%Q).
  { intros Hb. unfold accepted, score. now rewrite classify_blank. }
  assert (Hnone : n = 0%nat ->
                  accepted v question = false /\ score v question = 0%Q).
  { intros Hn. destruct (blank question) eqn:Hb; [now apply Hblank|].
    unfold accepted, score. now rewrite classify_no_token. }
  assert (Hsome : n <> 0%nat ->
                  accepted v question
                  = (Qle_bool (threshold v) (ratio hits n) || Nat.leb 2 hits)%bool
                  /\ score v question = ratio hits n).
  { intros Hn. apply classify_tokens; [|exact Hn].
    destruct (blank question) eqn:Hb; [|reflexivity].
    exfalso. apply Hn. apply token_count_zero. now apply blank_no_word. }
  assert (Hscore : score v question = (if Nat.eqb n 0 then 0%Q else ratio hits n)).
  { destruct (Nat.eqb_spec n 0) as [Hn|Hn];
      [apply (Hnone Hn) | apply (Hsome Hn)]. }
  assert (Hacc : accepted v question
                 = (negb (Nat.eqb n 0)
                    && (Qle_bool (threshold v) (score v question)
                        || Nat.leb 2 hits))%bool).
  { destruct (Nat.eqb_spec n 0) as [Hn|Hn].
    - now destruct (Hnone Hn) as [-> _].
    - destruct (Hsome Hn) as [-> ->]. reflexivity. }
  assert (Htwo : (2 <= hits)%nat -> n <> 0%nat -> accepted v question = true).
  { intros H2 Hn. destruct (Hsome Hn) as [-> _].
    apply orb_true_iff. right. now apply Nat.leb_le. }
  split; [exact Hscore|]. split; [exact Hacc|]. split; [exact Hblank|].
  split; [exact Htwo|]. split.
  { intros Hd. symmetry. now apply matched_count_filter. }
  intros Hwf m. unfold well_configured in Hwf.
  apply andb_true_iff in Hwf as [Hwf Hth].
  apply andb_true_iff in Hwf as [Hd Hw]. apply negb_true_iff in Hth.
  assert (Hm : m = hits) by now apply matched_count_filter.
  assert (Hzero : n = 0%nat -> hits = 0%nat).
  { intros Hn. unfold hits. rewrite no_match_without_word; [reflexivity | exact Hw |].
    rewrite chars_lower, existsb_word_lower. now apply token_count_zero. }
  assert (Ha : accepted v question
               = (Qle_bool (threshold v) (score v question) || Nat.leb 2 m)%bool).
  { rewrite Hm. destruct (Nat.eqb_spec n 0) as [Hn|Hn].
    - destruct (Hnone Hn) as [-> ->]. now rewrite (Hzero Hn), Hth.
    - destruct (Hsome Hn) as [-> ->]. reflexivity. }
  split; [now rewrite Hm|]. split; [exact Ha|].
  intros H2. rewrite Ha. apply orb_true_iff. right. now apply Nat.leb_le.
Qed.

(** The default validator on a question of the guardrail tests. *)
Lemma scope_gate_classification_witness :
  let v := init None Config.DEFAULT_THRESHOLD in
  let q := "What are the admission requirements for M.Sc. programs?" in
  well_configured v = true
  /\ score v q = ratio 6 9 /\ accepted v q = true.
Proof.
  intros v q.
  assert (Hwf : well_configured v = true) by (vm_compute; reflexivity).
  split; [exact Hwf|].
  destruct (scope_gate_classification v q) as (_ & _ & _ & _ & _ & Hshipped).
  destruct (Hshipped Hwf) as (Hs & _ & H2).
  split; [exact Hs | apply H2; vm_compute; lia].
Defined.

(** C5 as stated fails: a keyword that is listed twice is counted twice.
    After [add_keywords(["fee"])] on the default validator, which has
    [fee] already, a ten-word question whose only keyword is [fee] has one
    distinct matching keyword, so the stated formula gives the score 1/10
    and a rejection; the code gives 2/10 and accepts. *)
Lemma repeated_keyword_counted_twice :
  let v := add_keywords (init None Config.DEFAULT_THRESHOLD) ["fee"] in
  let q := "one two three four five six seven eight nine fee" in
  let m := matched_keyword_count v q in
  let n := token_count q in
  m = 1%nat /\ n = 10%nat
  /\ (Qle_bool (threshold v) (ratio m n) || Nat.leb 2 m)%bool = false
  /\ score v q = ratio 2 10
  /\ accepted v q = true
  /\ ~ (score v q == ratio m n)%Q.
Proof.
  intros v q m n.
  assert (Hm : m = 1%nat) by (vm_compute; reflexivity).
  assert (Hn : n = 10%nat) by (vm_compute; reflexivity).
  assert (Hs : score v q = ratio 2 10) by (vm_compute; reflexivity).
  split; [exact Hm|]. split; [exact Hn|].
  split; [rewrite Hm, Hn; vm_compute; reflexivity|].
  split; [exact Hs|]. split; [vm_compute; reflexivity|].
  rewrite Hs, Hm, Hn. intros H. vm_compute in H. discriminate.
Qed.

Lemma keyword_matches_add (v : t) (new : list string) (ql : string) :
  consistent v ->
  keyword_matches (add_keywords v new) ql
  = keyword_matches v ql
    ++ List.filter (fun keyword => contains keyword ql) (map lower new).
Proof.
  intros Hc. unfold keyword_matches, add_keywords. simpl.
  rewrite map_app, List.filter_app. now rewrite <- Hc.
Qed.

Lemma ratio_le (m m' n : nat) : (m <= m')%nat -> (ratio m n <= ratio m' n)%Q.
Proof.
  intros H. unfold ratio, Qle. simpl. apply Z.mul_le_mono_nonneg_r; lia.
Qed.

(** C10: extending the keyword list never lowers the number of matched
    keywords nor the score, and never turns an accepted question into a
    rejected one. *)
Theorem add_keywords_monotone (v : t) (new_keywords : list string) (question : string) :
  consistent v ->
  let v' := add_keywords v new_keywords in
  (length (keyword_matches v (lower question))
   <= length (keyword_matches v' (lower question)))%nat
  /\ (score v question <= score v' question)%Q
  /\ (accepted v question = true -> accepted v' question = true).
Proof.
  intros Hc v'.
  assert (Hlen : (length (keyword_matches v (lower question))
                  <= length (keyword_matches v' (lower question)))%nat).
  { unfold v'. rewrite keyword_matches_add by exact Hc. rewrite length_app. lia. }
  split; [exact Hlen|].
  destruct (blank question) eqn:Hb.
  { unfold accepted, score. rewrite !classify_blank by exact Hb. simpl.
    split; [apply Qle_refl | auto]. }
  destruct (Nat.eq_dec (token_count question) 0%nat) as [Hn|Hn].
  { unfold accepted, score. rewrite !classify_no_token by assumption. simpl.
    split; [apply Qle_refl | auto]. }
  destruct (classify_tokens v question Hb Hn) as [Ha Hs].
  destruct (classify_tokens v' question Hb Hn) as [Ha' Hs'].
  rewrite Hs, Hs', Ha, Ha'. split; [now apply ratio_le|].
  intros H. apply orb_true_iff in H as [H|H]; apply orb_true_iff.
  - left. apply Qle_bool_iff. apply Qle_bool_iff in H.
    eapply Qle_trans; [exact H | now apply ratio_le].
  - right. apply Nat.leb_le. apply Nat.leb_le in H. lia.
Qed.

(** The default validator extended by one keyword. *)
Lemma add_keywords_monotone_witness :
  let v := init None Config.DEFAULT_THRESHOLD in
  let q := "What programs are offered?" in
  consistent v
  /\ (score v q <= score (add_keywords v ["offered"]) q)%Q
  /\ accepted v q = true
  /\ accepted (add_keywords v ["offered"]) q = true.
Proof.
  intros v q.
  assert (Hc : consistent v) by reflexivity.
  assert (Hq : accepted v q = true) by (vm_compute; reflexivity).
  destruct (add_keywords_monotone v ["offered"] q Hc) as (_ & Hs & Ha).
  split; [exact Hc|]. split; [exact Hs|]. split; [exact Hq | exact (Ha Hq)].
Defined.

End ScopeGate.

(* ===================================================================== *)
(** * The chunker *)
(* ===================================================================== *)

Module Chunking.
Import PyStr StringFacts PySlice TextChunker.

Lemma chars_append (a b : string) : chars (a ++ b)%string = chars a ++ chars b.
Proof. induction a as [|x a IH]; simpl; [reflexivity|]. now rewrite IH. Qed.

Lemma runs_prefix (p : ascii -> bool) (w cs cur : list ascii) :
  forallb p w = true -> runs p (w ++ cs) cur = runs p cs (cur ++ w).
Proof.
  revert cur. induction w as [|x w IH]; intros cur H; simpl.
  - now rewrite app_nil_r.
  - simpl in H. apply andb_true_iff in H as [Hx Hw].
    rewrite Hx, IH by exact Hw. now rewrite <- app_assoc.
Qed.

Lemma runs_sep (p : ascii -> bool) (sep : ascii) (cs cur : list ascii) :
  p sep = false -> cur <> [] -> runs p (sep :: cs) cur = cur :: runs p cs [].
Proof. intros Hs Hc. simpl. rewrite Hs. destruct cur; congruence. Qed.

Lemma runs_tokens (p : ascii -> bool) (cs acc : list ascii) :
  forallb p acc = true ->
  Forall (fun w => w <> [] /\ forallb p w = true) (runs p cs acc).
Proof.
  revert acc. induction cs as [|x r IH]; intros acc Ha; simpl.
  - destruct acc; constructor; [split; [discriminate | exact Ha] | constructor].
  - destruct (p x) eqn:Hx.
    + apply IH. rewrite forallb_app, Ha. simpl. now rewrite Hx.
    + destruct acc as [|a acc'].
      * now apply IH.
      * constructor; [split; [discriminate | exact Ha] | now apply IH].
Qed.

(** Every word of [text.split()] is a token. *)
Lemma split_tokens (text : string) : Forall is_token (split text).
Proof.
  unfold split. apply List.Forall_map.
  eapply List.Forall_impl;
    [|apply (runs_tokens not_space (chars text) []); reflexivity].
  intros w [Hn Hp]. unfold is_token. now rewrite chars_str.
Qed.

Lemma runs_join (ws : list string) :
  Forall is_token ws ->
  runs not_space (chars (join " " ws)) [] = map chars ws.
Proof.
  induction ws as [|w r IH]; intros H; [reflexivity|].
  inversion H as [|? ? [Hn Hp] Hr]; subst.
  destruct r as [|w' r'].
  - simpl. rewrite <- (app_nil_r (chars w)) at 1.
    rewrite runs_prefix by exact Hp. simpl. destruct (chars w); congruence.
  - change (join " " (w :: w' :: r'))
      with (w ++ " " ++ join " " (w' :: r'))%string.
    rewrite chars_append, runs_prefix by exact Hp.
    rewrite chars_append. change (chars " ") with [" "%char].
    cbn [app]. rewrite runs_sep by (reflexivity || exact Hn).
    rewrite (IH Hr). reflexivity.
Qed.

(** Joining tokens with one space and splitting again gives the tokens
    back: a chunk has exactly the words of its window. *)
Lemma split_join (ws : list string) :
  Forall is_token ws -> split (join " " ws) = ws.
Proof.
  intros H. unfold split. rewrite (runs_join ws H).
  rewrite map_map. rewrite <- (map_id ws) at 2.
  apply map_ext. intros w. apply str_chars.
Qed.


Lemma slice_in_range {A} (l : list A) (a b : Z) :
  0 <= a <= b -> b <= Z.of_nat (length l) ->
  slice l a b = firstn (Z.to_nat (b - a)) (skipn (Z.to_nat a) l).
Proof.
  intros Hab Hb. unfold slice, norm_index.
  destruct (Z.ltb_spec a 0), (Z.ltb_spec b 0); try lia.
  now rewrite !Z.min_l by lia.
Qed.

Lemma length_slice {A} (l : list A) (a b : Z) :
  0 <= a <= b -> b <= Z.of_nat (length l) ->
  Z.of_nat (length (slice l a b)) = b - a.
Proof.
  intros Hab Hb. rewrite slice_in_range by assumption.
  rewrite length_firstn, length_skipn. lia.
Qed.

Lemma slice_tokens (words : list string) (a b : Z) :
  Forall is_token words -> Forall is_token (slice words a b).
Proof. intros H. unfold slice. now apply Forall_take, Forall_drop. Qed.

Lemma ceil_div_unique (a b n : Z) :
  0 < b -> (n - 1) * b < a <= n * b -> ceil_div a b = n.
Proof.
  intros Hb H. unfold ceil_div. symmetry.
  apply (Z.div_unique_pos _ _ _ (a + b - 1 - n * b)); lia.
Qed.

Section Loop.
Variable c : t.
Variable words : list string.
Hypothesis Hc : 0 <= overlap c < chunk_size c.

Let W : Z := Z.of_nat (length words).
Let stride : Z := chunk_size c - overlap c.

Let window : Z -> string := TextChunker.window c words.

Lemma words_loop_acc (fuel : nat) (start : Z) (chunks : list string) :
  words_loop fuel c words start chunks
  = option_map (app chunks) (words_loop fuel c words start []).
Proof.
  revert start chunks. induction fuel as [|fuel IH]; intros start chunks;
    [reflexivity|].
  cbn [words_loop]. destruct (start <? Z.of_nat (length words)).
  - destruct (Z.min (start + chunk_size c) (Z.of_nat (length words))
              >=? Z.of_nat (length words)).
    + reflexivity.
    + rewrite IH. rewrite (IH _ ([] ++ _)).
      destruct (words_loop fuel c words _ []); simpl; [|reflexivity].
      now rewrite <- app_assoc.
  - simpl. now rewrite app_nil_r.
Qed.

(** What the loop returns when started inside the text with enough fuel:
    the windows at [start], [start + stride], ..., the last one being the
    first that reaches the end of the text. *)
Lemma words_loop_spec (fuel : nat) :
  forall start, 0 <= start < W -> W - start <= Z.of_nat fuel ->
  exists rest,
    words_loop fuel c words start [] = Some rest
    /\ (forall i chunk, nth_error rest i = Some chunk ->
          chunk = window (start + Z.of_nat i * stride)
          /\ start + Z.of_nat i * stride < W)
    /\ (forall i, (i + 1 < length rest)%nat ->
          start + Z.of_nat i * stride + chunk_size c < W)
    /\ (let n := Z.of_nat (length rest) in
        (W - start <= chunk_size c /\ n = 1)
        \/ (chunk_size c < W - start
            /\ (n - 1) * stride < W - start - overlap c <= n * stride)).
Proof.
  induction fuel as [|fuel IH]; intros start Hs Hf; [lia|].
  cbn [words_loop]. fold W.
  destruct (Z.ltb_spec start W) as [_|]; [|lia].
  destruct (Z.le_gt_cases (W - start) (chunk_size c)) as [Hlast|Hmore].
  - rewrite Z.min_r by lia.
    replace (W >=? W) with true by (rewrite Z.geb_leb; symmetry; apply Z.leb_refl).
    exists [window start]. split.
    { simpl. unfold window, TextChunker.window. fold W.
      now rewrite Z.min_r by lia. }
    split.
    { intros [|i] chunk H; simpl in H; [|destruct i; discriminate].
      injection H as <-. rewrite Z.add_0_r. split; [reflexivity | lia]. }
    split; [simpl; intros; lia|].
    left. simpl. lia.
  - rewrite Z.min_l by lia.
    replace (start + chunk_size c >=? W) with false
      by (rewrite Z.geb_leb; symmetry; apply Z.leb_gt; lia).
    rewrite words_loop_acc.
    destruct (IH (start + stride)) as (rest & Hrun & Hnth & Hfull & Hcount);
      [unfold stride; lia | unfold stride; lia |].
    fold stride. rewrite Hrun.
    exists (window start :: rest). split.
    { simpl. unfold window, TextChunker.window. fold W.
      now rewrite Z.min_l by lia. }
    split.
    { intros [|i] chunk H; simpl in H.
      - injection H as <-. rewrite Z.add_0_r. split; [reflexivity | lia].
      - destruct (Hnth i chunk H) as [-> Hlt].
        replace (start + Z.of_nat (S i) * stride)
          with (start + stride + Z.of_nat i * stride) by lia.
        split; [reflexivity | exact Hlt]. }
    split.
    { intros [|i] Hi.
      - lia.
      - simpl in Hi.
        replace (start + Z.of_nat (S i) * stride)
          with (start + stride + Z.of_nat i * stride) by lia.
        apply Hfull. lia. }
    right. split; [lia|].
    cbn [length]. rewrite Nat2Z.inj_succ. simpl in Hcount. unfold stride in *.
    destruct Hcount as [[H1 H2]|[H1 H2]]; [rewrite H2|]; lia.
Qed.

End Loop.


(** Without a positive stride the loop makes no progress: once a window
    stops short of the end of the text, no amount of fuel is enough. *)
Lemma words_loop_no_progress (c : t) (words : list string) (fuel : nat) :
  chunk_size c <= overlap c ->
  forall start chunks,
    start < Z.of_nat (length words) ->
    start + chunk_size c < Z.of_nat (length words) ->
    words_loop fuel c words start chunks = None.
Proof.
  intros Hc. induction fuel as [|fuel IH]; intros start chunks Hs Hw;
    [reflexivity|].
  cbn [words_loop].
  destruct (Z.ltb_spec start (Z.of_nat (length words))); [|lia].
  rewrite Z.min_l by lia.
  replace (start + chunk_size c >=? Z.of_nat (length words)) with false
    by (rewrite Z.geb_leb; symmetry; apply Z.leb_gt; lia).
  apply IH; lia.
Qed.

(** With a positive stride the loop returns within the fuel
    [chunk_by_words] gives it. *)
Lemma words_loop_returns (c : t) (words : list string) (fuel : nat) :
  0 < chunk_size c - overlap c ->
  forall start chunks,
    0 <= start -> Z.max 0 (Z.of_nat (length words) - start) < Z.of_nat fuel ->
    exists result, words_loop fuel c words start chunks = Some result.
Proof.
  intros Hc. induction fuel as [|fuel IH]; intros start chunks Hs Hf; [lia|].
  cbn [words_loop].
  destruct (Z.ltb_spec start (Z.of_nat (length words))); [|eauto].
  destruct (_ >=? _); [eauto|]. apply IH; lia.
Qed.

Lemma chunk_by_words_returns (c : t) (text : string) :
  0 < chunk_size c - overlap c ->
  exists chunks, chunk_by_words c text = Some chunks.
Proof.
  intros Hc. unfold chunk_by_words. destruct (is_empty text); [eauto|].
  apply words_loop_returns; [exact Hc | lia | lia].
Qed.

Lemma split_empty_text (text : string) : is_empty text = true -> split text = [].
Proof. destruct text; simpl; [reflexivity | discriminate]. Qed.

(** Two windows one stride apart share the last [O] words of the first. *)
Lemma slice_overlap (words : list string) (a S O : Z) (b : Z) :
  0 <= a -> 0 <= O < S -> a + S < Z.of_nat (length words) ->
  a + S < b <= Z.of_nat (length words) ->
  skipn (Z.to_nat (S - O)) (slice words a (a + S))
  = firstn (Z.to_nat O) (slice words (a + (S - O)) b).
Proof.
  intros Ha HO HS Hb. rewrite !slice_in_range by lia.
  rewrite skipn_firstn_comm, skipn_skipn, firstn_firstn.
  replace (Z.to_nat (a + S - a) - Z.to_nat (S - O))%nat with (Z.to_nat O) by lia.
  replace (Z.to_nat (S - O) + Z.to_nat a)%nat with (Z.to_nat (a + (S - O))) by lia.
  now rewrite Nat.min_l by lia.
Qed.

(** C7: for [0 <= O < S] and a text of [W > 0] words, [chunk_by_words]
    returns [ceil(max(W-O,0)/(S-O))] chunks ([1] when [W <= S]); chunk [i]
    holds the words from position [i*(S-O)] up to [S] words further or to
    the end of the text, hence at most [S] words; a chunk that has a
    successor is full, its last [O] words are the first [O] words of the
    successor, and the successor goes on after them. *)
Theorem chunk_by_words_windows (c : t) (text : string) :
  0 <= overlap c < chunk_size c ->
  (0 < length (split text))%nat ->
  let words := split text in
  let W := Z.of_nat (length words) in
  let S := chunk_size c in
  let O := overlap c in
  exists chunks,
    chunk_by_words c text = Some chunks
    /\ Z.of_nat (length chunks) = expected_chunks c W
    /\ (forall i chunk, nth_error chunks i = Some chunk ->
          split chunk
          = slice words (Z.of_nat i * (S - O)) (Z.min (Z.of_nat i * (S - O) + S) W)
          /\ Z.of_nat (length (split chunk)) <= S)
    /\ (forall i chunk next,
          nth_error chunks i = Some chunk ->
          nth_error chunks (i + 1) = Some next ->
          Z.of_nat (length (split chunk)) = S
          /\ skipn (Z.to_nat (S - O)) (split chunk)
             = firstn (Z.to_nat O) (split next)
          /\ O < Z.of_nat (length (split next))).
Proof.
  intros Hc HW. cbv zeta.
  assert (Hne : is_empty text = false).
  { destruct (is_empty text) eqn:E; [|reflexivity].
    rewrite (split_empty_text text E) in HW. simpl in HW. lia. }
  destruct (words_loop_spec c (split text) Hc (Datatypes.S (length (split text))) 0)
    as (chunks & Hrun & Hnth & Hfull & Hcount); [lia | lia |].
  unfold chunk_by_words, expected_chunks, window. rewrite Hne.
  unfold window in Hnth.
  set (words := split text) in *. set (W := Z.of_nat (length words)) in *.
  set (S := chunk_size c) in *. set (O := overlap c) in *.
  assert (Htok : Forall is_token words) by apply split_tokens.
  assert (Hpos : forall i, 0 <= Z.of_nat i * (S - O)).
  { intros i. apply Z.mul_nonneg_nonneg; lia. }
  assert (Hsplit : forall i chunk, nth_error chunks i = Some chunk ->
            split chunk
            = slice words (Z.of_nat i * (S - O)) (Z.min (Z.of_nat i * (S - O) + S) W)
            /\ Z.of_nat i * (S - O) < W).
  { intros i chunk H. destruct (Hnth i chunk H) as [-> Hlt].
    rewrite Z.add_0_l in *. split; [|exact Hlt].
    apply split_join. now apply slice_tokens. }
  exists chunks. split; [exact Hrun|].
  split.
  { rewrite Z.sub_0_r in Hcount.
    cbv zeta in Hcount. destruct Hcount as [[H1 H2]|[H1 H2]].
    - destruct (Z.leb_spec W S); [exact H2 | lia].
    - destruct (Z.leb_spec W S); [lia|].
      rewrite Z.max_l by lia. symmetry. apply ceil_div_unique; lia. }
  split.
  { intros i chunk H. destruct (Hsplit i chunk H) as [-> Hlt].
    split; [reflexivity|]. pose proof (Hpos i).
    rewrite length_slice; fold W; lia. }
  intros i chunk next Hi Hn.
  assert (Hlen : (i + 1 < length chunks)%nat).
  { apply nth_error_Some. congruence. }
  specialize (Hfull i Hlen). rewrite Z.add_0_l in Hfull.
  pose proof (Hpos i).
  destruct (Hsplit i chunk Hi) as [-> _].
  destruct (Hsplit (i + 1)%nat next Hn) as [-> Hlt].
  rewrite Z.min_l by lia.
  replace (Z.of_nat (i + 1) * (S - O)) with (Z.of_nat i * (S - O) + (S - O)) in * by lia.
  split; [rewrite length_slice; fold W; lia|].
  split.
  - apply slice_overlap; fold W; lia.
  - rewrite length_slice; fold W; lia.
Qed.

(** A text of eight words cut with [S = 3], [O = 1]. *)
Lemma chunk_by_words_windows_witness :
  let c := mk 3 1 in
  let text := "a b c d e f g h" in
  0 <= overlap c < chunk_size c
  /\ (0 < length (split text))%nat
  /\ exists chunks,
       chunk_by_words c text = Some chunks
       /\ Z.of_nat (length chunks) = 4.
Proof.
  intros c text.
  assert (H1 : 0 <= overlap c < chunk_size c) by (simpl; lia).
  assert (H2 : (0 < length (split text))%nat) by (vm_compute; lia).
  split; [exact H1|]. split; [exact H2|].
  destruct (chunk_by_words_windows c text H1 H2) as (chunks & Hr & Hn & _).
  exists chunks. split; [exact Hr | exact Hn].
Defined.


Lemma join_tokens_nonempty (ws : list string) :
  ws <> [] -> Forall is_token ws -> is_empty (join " " ws) = false.
Proof.
  intros Hn Ht. destruct (is_empty (join " " ws)) eqn:E; [|reflexivity].
  exfalso. apply Hn. rewrite <- (split_join ws Ht).
  now apply split_empty_text.
Qed.

(** Fixed-window mode does what is announced: no chunk for the empty
    text, and no empty chunk. *)
Lemma chunk_by_words_empty_text (c : t) : chunk_by_words c "" = Some [].
Proof. reflexivity. Qed.

Lemma chunk_by_words_nonempty_chunks (c : t) (text : string) (chunks : list string) :
  0 <= overlap c < chunk_size c ->
  chunk_by_words c text = Some chunks ->
  Forall (fun chunk => is_empty chunk = false) chunks.
Proof.
  intros Hc. unfold chunk_by_words.
  destruct (is_empty text); [intros [= <-]; constructor|].
  destruct (split text) as [|w ws] eqn:Hw; [intros [= <-]; constructor|].
  rewrite <- Hw. intros Hrun.
  destruct (words_loop_spec c (split text) Hc (Datatypes.S (length (split text))) 0)
    as (rest & Hrun' & Hnth & _); [rewrite Hw; simpl; lia | lia |].
  rewrite Hrun in Hrun'. injection Hrun' as ->.
  apply List.Forall_forall. intros chunk Hin.
  apply In_nth_error in Hin as [i Hi].
  destruct (Hnth i chunk Hi) as [-> Hlt]. unfold window.
  assert (0 <= Z.of_nat i * (chunk_size c - overlap c))
    by (apply Z.mul_nonneg_nonneg; lia).
  apply join_tokens_nonempty; [|apply slice_tokens, split_tokens].
  intros Hnil. apply (f_equal (@length string)) in Hnil.
  apply (f_equal Z.of_nat) in Hnil. rewrite length_slice in Hnil; simpl in Hnil; lia.
Qed.

(** C8, on the code: on the empty text fixed-window mode returns no
    chunk, while sentence-packing mode and section-aware mode return one
    chunk, which is the empty string. *)
Theorem chunking_modes_on_empty_text (c : t) :
  chunk_by_words c "" = Some []
  /\ chunk_by_sentences c "" = [""]
  /\ chunk_by_sections c "" = [""]
  /\ chunk_text "" (chunk_size c) (overlap c) = [""].
Proof.
  assert (Hs : chunk_by_sentences c "" = [""]).
  { unfold chunk_by_sentences. cbn [split_sentences chars list_ascii_of_string
      sentence_pieces map str string_of_list_ascii fold_left pack_step].
    change (split "") with (@nil string).
    destruct (_ <=? chunk_size c); reflexivity. }
  repeat split; exact Hs || reflexivity.
Qed.

(** Sentence-packing mode also ends with an empty chunk when a sentence
    longer than [chunk_size] is followed by trailing whitespace. *)
Example chunk_by_sentences_trailing_blank :
  chunk_by_sentences (mk 1 0) "a b. " = ["a b."; ""].
Proof. reflexivity. Qed.

End Chunking.

(* ===================================================================== *)
(** * Retrieval *)
(* ===================================================================== *)

Module Retrieval.
Import PyStr Py VectorStoreTypes Eff Retriever.

(** A handler that re-raises changes nothing. *)
Lemma try_except_reraise {A} (m : M A) (tr : trace) :
  try_except m (fun e => raise e) tr = m tr.
Proof. unfold try_except, raise. destruct (m tr) as [tr' [a|e]]; reflexivity. Qed.

Lemma query_eq (vs : VectorStore.t) (text : string) (k : Z) (flt : option dict)
      (v : option embedding) (tr : trace) :
  VectorStore.query vs text k flt v tr
  = call (EvQuery (VectorStore.build_params text k flt v))
         (VectorStore.collection_query vs (VectorStore.build_params text k flt v)) tr.
Proof. unfold VectorStore.query. apply try_except_reraise. Qed.

(** [retrieve] once the outcome of the embedding call is known: the
    query vector is [Some v] after a successful call and [None] after a
    failed one. *)
Lemma retrieve_after_embedding (self : t) (query : string) (top_k_arg : option Z)
      (tr : trace) :
  let expanded := _expand_query query in
  let k := or_default top_k_arg (top_k self) in
  let flt := metadata_filter_for self query in
  let v := match embed_text self expanded with
           | Ok v => Some v
           | Raise _ => None
           end in
  retrieve self query top_k_arg tr
  = query_and_assemble self (VectorStore.build_params expanded k flt v)
                       (tr ++ [EvEmbed expanded]).
Proof.
  cbv zeta. unfold retrieve. rewrite try_except_reraise.
  unfold query_and_assemble, mbind, M_bind, bind, try_except, call, mret, M_ret, ret.
  destruct (embed_text self (_expand_query query)) as [v|e];
    rewrite query_eq; reflexivity.
Qed.

(** C3, as the code has it: the text embedded is the expanded question,
    by the retriever's own embedder; when that call succeeds its vector is
    the query vector handed to the index and no query text is; when it
    fails the failure is not raised, and the index is queried with the
    expanded text and no vector. *)
Theorem retrieve_embedding_or_text (self : t) (query : string)
        (top_k_arg : option Z) (tr : trace) :
  let expanded := _expand_query query in
  let k := or_default top_k_arg (top_k self) in
  let flt := VectorStore.truthy_filter (metadata_filter_for self query) in
  (forall v, embed_text self expanded = Ok v ->
     retrieve self query top_k_arg tr
     = query_and_assemble self (mk_params k (Some [v]) None flt)
                          (tr ++ [EvEmbed expanded]))
  /\ (forall e, embed_text self expanded = Raise e ->
        retrieve self query top_k_arg tr
        = query_and_assemble self (mk_params k None (Some [expanded]) flt)
                             (tr ++ [EvEmbed expanded])).
Proof.
  cbv zeta. split; intros x Hx; rewrite retrieve_after_embedding; cbv zeta;
    rewrite Hx; reflexivity.
Qed.

Lemma retrieve_embedding_or_text_witness :
  let self := Examples.retriever_with Examples.working_embedder (1 # 4) in
  let q := Examples.admission_question in
  Examples.working_embedder (_expand_query q) = Ok [1%Q; 0%Q]
  /\ fst (retrieve self q (Some 5) [])
     = [EvEmbed (_expand_query q);
        EvQuery (mk_params 5 (Some [[1%Q; 0%Q]]) None None)].
Proof.
  intros self q.
  assert (H : embed_text self (_expand_query q) = Ok [1%Q; 0%Q]) by reflexivity.
  split; [exact H|].
  destruct (retrieve_embedding_or_text self q (Some 5) []) as [Hok _].
  rewrite (Hok _ H). reflexivity.
Defined.

(** C3 as stated fails: with an embedder that raises, [retrieve] raises
    nothing; it returns the document the index finds for the query text. *)
Lemma embedding_failure_swallowed :
  let self := Examples.retriever_with Examples.failing_embedder (1 # 4) in
  let q := Examples.admission_question in
  (exists e, embed_text self (_expand_query q) = Raise e)
  /\ exists tr docs,
       retrieve self q (Some 5) [] = (tr, Ok docs)
       /\ map content docs = [Examples.cgpa_sentence]
       /\ tr = [EvEmbed (_expand_query q);
                EvQuery (mk_params 5 None (Some [_expand_query q]) None)].
Proof.
  intros self q. split; [eexists; reflexivity|].
  eexists _, _. split; [vm_compute; reflexivity|].
  split; reflexivity.
Qed.




End Retrieval.

(* ===================================================================== *)
(** * The answer orchestrator *)
(* ===================================================================== *)

Module Orchestrator.
Import PyStr Py VectorStoreTypes Eff AnswerGenerator.

Lemma validate_rejected (v : ScopeValidator.t) (question : string) :
  ScopeValidator.accepted v question = false ->
  ScopeValidator.validate_and_respond v question = (false, Config.GUARDRAIL_MESSAGE).
Proof.
  unfold ScopeValidator.accepted, ScopeValidator.validate_and_respond.
  destruct (ScopeValidator.is_department_related v question) as [[b s] r].
  simpl. now intros ->.
Qed.

Lemma validate_accepted (v : ScopeValidator.t) (question : string) :
  ScopeValidator.accepted v question = true ->
  ScopeValidator.validate_and_respond v question = (true, "").
Proof.
  unfold ScopeValidator.accepted, ScopeValidator.validate_and_respond.
  destruct (ScopeValidator.is_department_related v question) as [[b s] r].
  simpl. now intros ->.
Qed.

Lemma generate_answer_run (self : t) (question : string) (top_k max_tokens : Z)
      (temperature : Q) (tr : trace) :
  generate_answer self question top_k max_tokens temperature tr
  = run_by_branch self question top_k max_tokens temperature tr.
Proof.
  unfold generate_answer, generate_answer_body, run_by_branch, try_except.
  destruct (ScopeValidator.accepted (scope_validator self) question) eqn:Hv.
  - rewrite (validate_accepted _ _ Hv). cbn [negb].
    unfold mbind, M_bind, bind, mret, M_ret, ret.
    destruct (Retriever.retrieve_and_format _ _ _ tr) as [tr1 [[context docs]|e]];
      [|reflexivity].
    destruct (is_empty context); [reflexivity|].
    destruct (LLMClient.generate _ _ _ _ tr1) as [tr2 [text|e]]; reflexivity.
  - rewrite (validate_rejected _ _ Hv). reflexivity.
Qed.


Lemma answer_run_total (self : t) (question : string) (top_k max_tokens : Z)
      (temperature : Q) (tr : trace) :
  exists tr' a,
    generate_answer self question top_k max_tokens temperature tr = (tr', Ok a).
Proof.
  unfold generate_answer, try_except, mret, M_ret, ret.
  destruct (generate_answer_body _ _ _ _ _ tr) as [tr' [a|e]]; eauto.
Qed.

Lemma metadata_keys_refused (msg question : string) :
  dom (metadata (refused_answer msg question))
  = ({["guardrail_triggered"; "question"]} : gset string).
Proof. unfold refused_answer. simpl. rewrite !dom_insert_L, dom_empty_L. set_solver. Qed.

Lemma metadata_keys_no_context (question : string) :
  dom (metadata (no_context_answer question))
  = ({["guardrail_triggered"; "retrieval_count"; "question"]} : gset string).
Proof.
  unfold no_context_answer. simpl. rewrite !dom_insert_L, dom_empty_L. set_solver.
Qed.

Lemma metadata_keys_error (e : exn) (question : string) :
  dom (metadata (error_answer e question))
  = ({["error"; "question"]} : gset string).
Proof. unfold error_answer. simpl. rewrite !dom_insert_L, dom_empty_L. set_solver. Qed.

Lemma metadata_keys_success (text question : string) (top_k : Z)
      (docs : list Retriever.doc) :
  dom (metadata (success_answer text question top_k docs))
  = ({["guardrail_triggered"; "retrieval_count"; "question"; "top_k"]} : gset string).
Proof.
  unfold success_answer. simpl. rewrite !dom_insert_L, dom_empty_L. set_solver.
Qed.

(** C1 as stated fails: the answer to an out-of-scope question has
    neither [retrieval_count] nor [top_k] in its metadata. *)
Lemma refused_answer_lacks_keys :
  let self := Examples.generator
                (Examples.retriever_with Examples.working_embedder (1 # 4))
                Examples.echo_llm in
  exists a,
    generate_answer self Examples.weather_question 5 512 (3 # 10) [] = ([], Ok a)
    /\ metadata a !! "retrieval_count" = None
    /\ metadata a !! "top_k" = None
    /\ ~ has_all_keys a.
Proof.
  intros self.
  exists (refused_answer Config.GUARDRAIL_MESSAGE Examples.weather_question).
  split; [vm_compute; reflexivity|].
  assert (H1 : metadata (refused_answer Config.GUARDRAIL_MESSAGE
                           Examples.weather_question) !! "top_k" = None).
  { unfold refused_answer. simpl. now rewrite !lookup_insert_ne, lookup_empty. }
  assert (H2 : metadata (refused_answer Config.GUARDRAIL_MESSAGE
                           Examples.weather_question) !! "retrieval_count" = None).
  { unfold refused_answer. simpl. now rewrite !lookup_insert_ne, lookup_empty. }
  split; [exact H2|]. split; [exact H1|].
  intros (_ & _ & _ & [x Hx]). rewrite H1 in Hx. discriminate.
Qed.

(** C1, as the code has it: [generate_answer] always returns an answer,
    whose metadata contains [question]; the other keys depend on the
    terminal branch: [guardrail_triggered] alone in REFUSED,
    [guardrail_triggered] and [retrieval_count] in NO_CONTEXT, [error]
    alone in ERROR, and [guardrail_triggered], [retrieval_count] and
    [top_k] in SUCCESS. *)
Theorem answer_metadata_by_branch (self : t) (question : string)
        (top_k max_tokens : Z) (temperature : Q) (tr : trace) :
  exists tr' a,
    generate_answer self question top_k max_tokens temperature tr = (tr', Ok a)
    /\ metadata a !! "question" = Some (VStr question)
    /\ ((a = refused_answer Config.GUARDRAIL_MESSAGE question
         /\ dom (metadata a) = {["guardrail_triggered"; "question"]})
        \/ (a = no_context_answer question
            /\ dom (metadata a)
               = {["guardrail_triggered"; "retrieval_count"; "question"]})
        \/ (exists e, a = error_answer e question
            /\ dom (metadata a) = {["error"; "question"]})
        \/ (exists text docs, a = success_answer text question top_k docs
            /\ dom (metadata a)
               = {["guardrail_triggered"; "retrieval_count"; "question"; "top_k"]})).
Proof.
  rewrite generate_answer_run. unfold run_by_branch.
  destruct (ScopeValidator.accepted (scope_validator self) question).
  - destruct (Retriever.retrieve_and_format _ _ _ tr) as [tr1 [[context docs]|e]].
    + destruct (is_empty context).
      * exists tr1, (no_context_answer question). split; [reflexivity|].
        split; [reflexivity|]. right. left.
        split; [reflexivity | apply metadata_keys_no_context].
      * destruct (LLMClient.generate _ _ _ _ tr1) as [tr2 [text|e]].
        -- exists tr2, (success_answer text question top_k docs).
           split; [reflexivity|]. split; [reflexivity|]. right. right. right.
           exists text, docs. split; [reflexivity | apply metadata_keys_success].
        -- exists tr2, (error_answer e question). split; [reflexivity|].
           split; [reflexivity|]. right. right. left.
           exists e. split; [reflexivity | apply metadata_keys_error].
    + exists tr1, (error_answer e question). split; [reflexivity|].
      split; [reflexivity|]. right. right. left.
      exists e. split; [reflexivity | apply metadata_keys_error].
  - exists tr, (refused_answer Config.GUARDRAIL_MESSAGE question).
    split; [reflexivity|]. split; [reflexivity|]. left.
    split; [reflexivity | apply metadata_keys_refused].
Qed.


Lemma truthy_nonzero (q : Q) : truthy q = true <-> ~ (q == 0)%Q.
Proof.
  unfold truthy. rewrite negb_true_iff. split.
  - intros H Hq. apply Qeq_bool_iff in Hq. congruence.
  - intros H. destruct (Qeq_bool q 0) eqn:E; [|reflexivity].
    exfalso. apply H. now apply Qeq_bool_iff.
Qed.

Lemma relevance_in_unit (q : Q) :
  (0 <= q <= 1)%Q -> (0 <= (if truthy q then 1 - q else 0) <= 1)%Q.
Proof. intros H. destruct (truthy q); lra. Qed.

(** When the index returns no distances, [retrieve] stores the distance
    0 and the relevance is 0. *)
Lemma relevance_without_distances (results : query_result) (i : nat)
      (text : string) (tr tr' : trace) (d : Retriever.doc) :
  distances results = None ->
  Retriever.assemble_doc results i text tr = (tr', Ok d) ->
  relevance_of d = 0%Q.
Proof.
  intros Hn. unfold Retriever.assemble_doc. rewrite Hn.
  unfold mbind, M_bind, bind, mret, M_ret, ret, of_option, raise.
  destruct (metadatas results) as [ms|]; [destruct (nth_error ms i)|];
    try discriminate;
    (destruct (ids results) as [l|]; [destruct (nth_error l i)|];
     try discriminate; intros [= _ <-]; reflexivity).
Qed.

(** C2 as stated fails: a result at distance 0 gets relevance 0, not 1,
    and a result at distance 3/2 gets a negative relevance. *)
Lemma relevance_counterexample :
  let at_distance d :=
    Retriever.mk_doc Examples.cgpa_sentence (Some Examples.chunk_meta)
                     "chunk_0" (Some d) in
  let score d :=
    map relevance_score
        (sources (success_answer "text" Examples.admission_question 5 [at_distance d])) in
  score 0%Q = [0%Q]
  /\ ~ (0 == 1 - 0)%Q
  /\ score (3 # 2) = [(1 - (3 # 2))%Q]
  /\ ~ (0 <= 1 - (3 # 2))%Q.
Proof.
  cbv zeta. split; [reflexivity|]. split; [discriminate|].
  split; [reflexivity|]. intros H. vm_compute in H. now apply H.
Qed.

(** C2, as the code has it: in a SUCCESS answer the source record of a
    result is its [source_of]; its relevance is [1 - distance] when a
    non-zero distance is present and 0 when none is; it lies in [0,1]
    whenever the distance, if present, lies in [0,1]. *)
Theorem relevance_of_distance (text question : string) (top_k : Z)
        (docs : list Retriever.doc) (i : nat) (d : Retriever.doc) :
  nth_error docs i = Some d ->
  exists s,
    nth_error (sources (success_answer text question top_k docs)) i = Some s
    /\ (forall q, Retriever.distance d = Some q -> ~ (q == 0)%Q ->
          relevance_score s = (1 - q)%Q)
    /\ (Retriever.distance d = None -> relevance_score s = 0%Q)
    /\ (forall q, Retriever.distance d = Some q -> (0 <= q <= 1)%Q ->
          (0 <= relevance_score s <= 1)%Q).
Proof.
  intros Hd. exists (source_of d). split.
  { unfold success_answer. simpl. now rewrite nth_error_map, Hd. }
  unfold source_of, relevance_of. simpl. split.
  { intros q -> Hq. apply truthy_nonzero in Hq. now rewrite Hq. }
  split.
  { intros ->. reflexivity. }
  intros q -> Hq. now apply relevance_in_unit.
Qed.

Lemma relevance_of_distance_witness :
  let d := Retriever.mk_doc Examples.cgpa_sentence (Some Examples.chunk_meta)
                            "chunk_0" (Some (1 # 4)) in
  nth_error [d] 0 = Some d
  /\ exists s,
       nth_error (sources (success_answer "text" Examples.admission_question 5 [d])) 0
       = Some s
       /\ relevance_score s = (1 - (1 # 4))%Q.
Proof.
  intros d.
  assert (H : nth_error [d] 0 = Some d) by reflexivity.
  split; [exact H|].
  destruct (relevance_of_distance "text" Examples.admission_question 5 [d] 0 d H)
    as (s & Hs & Heq & _).
  exists s. split; [exact Hs|]. apply Heq; [reflexivity | discriminate].
Defined.

Lemma context_of_documents_not_empty (d : Retriever.doc) (ds : list Retriever.doc) :
  is_empty (Retriever.format_context (d :: ds)) = false.
Proof.
  unfold Retriever.format_context. cbn [Retriever.context_blocks].
  destruct (Retriever.context_blocks 2 ds); reflexivity.
Qed.

Lemma error_answer_inj (e e' : exn) (question : string) :
  error_answer e question = error_answer e' question -> e = e'.
Proof.
  intros H. apply (f_equal (fun a => metadata a !! "error")) in H.
  unfold error_answer in H. cbn [metadata] in H.
  rewrite !lookup_insert_eq in H. destruct e, e'. simpl in H. congruence.
Qed.

Lemma error_answer_not_no_context (e : exn) (question : string) :
  no_context_answer question <> error_answer e question.
Proof.
  intros H. apply (f_equal (fun a => metadata a !! "error")) in H.
  unfold no_context_answer, error_answer in H. cbn [metadata] in H.
  rewrite lookup_insert_eq, !lookup_insert_ne, lookup_empty in H by discriminate.
  discriminate.
Qed.

Lemma error_answer_not_success (e : exn) (text question : string) (top_k : Z)
      (docs : list Retriever.doc) :
  success_answer text question top_k docs <> error_answer e question.
Proof.
  intros H. apply (f_equal (fun a => metadata a !! "error")) in H.
  unfold success_answer, error_answer in H. cbn [metadata] in H.
  rewrite lookup_insert_eq, !lookup_insert_ne, lookup_empty in H by discriminate.
  discriminate.
Qed.

(** C4, as the code has it: [generate_answer] never raises.  For a
    question that passes the guardrail, an exception of retrieval (the
    index query or the assembly of its results) or of generation is caught
    and the answer is the generic failure message with no citations, no
    sources and the metadata [error] (the exception text) and [question],
    nothing else; and the failure answer is given in these two cases only.
    A failure of the embedding step is not among them: [retrieve] catches
    it and queries the index by text, and when that query returns
    documents and generation succeeds the answer is the successful one,
    without [error]. *)
Theorem generate_answer_never_raises (self : t) (question : string)
        (top_k max_tokens : Z) (temperature : Q) (tr : trace) :
  (exists tr' a,
     generate_answer self question top_k max_tokens temperature tr = (tr', Ok a))
  /\ (ScopeValidator.accepted (scope_validator self) question = true ->
      (forall tr1 e,
         Retriever.retrieve_and_format (retriever self) question (Some top_k) tr
         = (tr1, Raise e) ->
         generate_answer self question top_k max_tokens temperature tr
         = (tr1, Ok (error_answer e question)))
      /\ (forall tr1 context docs tr2 e,
            Retriever.retrieve_and_format (retriever self) question (Some top_k) tr
            = (tr1, Ok (context, docs)) ->
            is_empty context = false ->
            LLMClient.generate (llm_client self)
              (LLMClient.create_prompt context question) max_tokens temperature tr1
            = (tr2, Raise e) ->
            generate_answer self question top_k max_tokens temperature tr
            = (tr2, Ok (error_answer e question)))
      /\ (forall tr' e,
            generate_answer self question top_k max_tokens temperature tr
            = (tr', Ok (error_answer e question)) ->
            Retriever.retrieve_and_format (retriever self) question (Some top_k) tr
            = (tr', Raise e)
            \/ exists tr1 context docs,
                 Retriever.retrieve_and_format (retriever self) question
                   (Some top_k) tr = (tr1, Ok (context, docs))
                 /\ is_empty context = false
                 /\ LLMClient.generate (llm_client self)
                      (LLMClient.create_prompt context question)
                      max_tokens temperature tr1 = (tr', Raise e))
      /\ (forall e0 tr1 d ds tr2 text,
            let r := retriever self in
            let expanded := Retriever._expand_query question in
            Retriever.embed_text r expanded = Raise e0 ->
            Retriever.query_and_assemble r
              (mk_params (Retriever.or_default (Some top_k) (Retriever.top_k r))
                         None (Some [expanded])
                         (VectorStore.truthy_filter
                            (Retriever.metadata_filter_for r question)))
              (tr ++ [EvEmbed expanded]) = (tr1, Ok (d :: ds)) ->
            LLMClient.generate (llm_client self)
              (LLMClient.create_prompt (Retriever.format_context (d :: ds)) question)
              max_tokens temperature tr1 = (tr2, Ok text) ->
            generate_answer self question top_k max_tokens temperature tr
            = (tr2, Ok (success_answer text question top_k (d :: ds)))
            /\ metadata (success_answer text question top_k (d :: ds)) !! "error"
               = None))
  /\ (forall e,
        let a := error_answer e question in
        answer a = ERROR_MESSAGE
        /\ citations a = []
        /\ sources a = []
        /\ metadata a !! "error" = Some (VStr (str_of_exn e))
        /\ metadata a !! "question" = Some (VStr question)
        /\ dom (metadata a) = ({["error"; "question"]} : gset string)).
Proof.
  split.
  { destruct (answer_run_total self question top_k max_tokens temperature tr)
      as (tr' & a & H). now exists tr', a. }
  split.
  - intros Hv. rewrite generate_answer_run. unfold run_by_branch. rewrite Hv.
    split; [intros tr1 e ->; reflexivity|].
    split; [intros tr1 context docs tr2 e -> -> ->; reflexivity|].
    split.
    + intros tr' e.
      destruct (Retriever.retrieve_and_format _ _ _ tr) as [tr1 [[context docs]|e1]].
      * destruct (is_empty context) eqn:Hc.
        { intros H. exfalso. apply (error_answer_not_no_context e question).
          congruence. }
        destruct (LLMClient.generate _ _ _ _ tr1) as [tr2 [text|e2]] eqn:Hg.
        { intros H. exfalso.
          apply (error_answer_not_success e text question top_k docs).
          congruence. }
        intros H.
        assert (Ht : tr2 = tr') by congruence.
        assert (He : e2 = e) by (apply (error_answer_inj _ _ question); congruence).
        subst tr' e. right. exists tr1, context, docs. repeat split; assumption.
      * intros H.
        assert (Ht : tr1 = tr') by congruence.
        assert (He : e1 = e) by (apply (error_answer_inj _ _ question); congruence).
        subst tr' e. now left.
    + intros e0 tr1 d ds tr2 text He Hq Hg.
      unfold Retriever.retrieve_and_format, mbind, M_bind, bind, mret, M_ret, ret.
      rewrite Retrieval.retrieve_after_embedding. cbv zeta. rewrite He.
      change (VectorStore.build_params (Retriever._expand_query question)
                (Retriever.or_default (Some top_k) (Retriever.top_k (retriever self)))
                (Retriever.metadata_filter_for (retriever self) question) None)
        with (mk_params
                (Retriever.or_default (Some top_k) (Retriever.top_k (retriever self)))
                None (Some [Retriever._expand_query question])
                (VectorStore.truthy_filter
                   (Retriever.metadata_filter_for (retriever self) question))).
      rewrite Hq, context_of_documents_not_empty, Hg.
      split; [reflexivity|].
      unfold success_answer. cbn [metadata].
      now rewrite !lookup_insert_ne, lookup_empty by discriminate.
  - intros e. cbv zeta. split; [reflexivity|]. split; [reflexivity|].
    split; [reflexivity|]. split; [reflexivity|].
    split; [|apply metadata_keys_error].
    unfold error_answer. cbn [metadata].
    now rewrite lookup_insert_ne, lookup_insert_eq by discriminate.
Qed.

Lemma generate_answer_never_raises_witness :
  let self := Examples.generator
                (Examples.retriever_with Examples.working_embedder (1 # 4))
                Examples.failing_llm in
  let q := Examples.admission_question in
  ScopeValidator.accepted (scope_validator self) q = true
  /\ exists tr,
       generate_answer self q 5 512 (3 # 10) []
       = (tr, Ok (error_answer (Exception "CUDA out of memory") q)).
Proof.
  intros self q.
  assert (Hv : ScopeValidator.accepted (scope_validator self) q = true)
    by (vm_compute; reflexivity).
  split; [exact Hv|].
  destruct (generate_answer_never_raises self q 5 512 (3 # 10) [])
    as (_ & H & _).
  destruct (H Hv) as (_ & Hgen & _).
  destruct (Retriever.retrieve_and_format (retriever self) q (Some 5) [])
    as [tr1 [[context docs]|e]] eqn:Hr; [|vm_compute in Hr; discriminate].
  eexists. eapply (Hgen tr1 context docs _ _ eq_refl).
  - vm_compute in Hr. injection Hr as _ <- _. reflexivity.
  - vm_compute in Hr. injection Hr as <- <- <-. vm_compute. reflexivity.
Defined.

(** C4 as stated fails: the embedding call is a step after the guardrail,
    and when it fails the answer is not the failure answer.  With an
    embedder that raises, an index that answers the text query and a
    generation model that answers, the question gets the answer of the
    model, with a citation and without [error]. *)
Lemma embedding_failure_not_reported :
  let self := Examples.generator
                (Examples.retriever_with Examples.failing_embedder (1 # 4))
                Examples.echo_llm in
  let q := Examples.admission_question in
  ScopeValidator.accepted (scope_validator self) q = true
  /\ (exists e,
        Retriever.embed_text (retriever self) (Retriever._expand_query q) = Raise e)
  /\ exists a,
       snd (generate_answer self q 5 512 (3 # 10) []) = Ok a
       /\ answer a = "The minimum CGPA is 3.0."
       /\ answer a <> ERROR_MESSAGE
       /\ citations a = [Examples.cgpa_sentence]
       /\ metadata a !! "error" = None.
Proof.
  intros self q.
  split; [vm_compute; reflexivity|].
  split; [eexists; reflexivity|].
  exists (success_answer "The minimum CGPA is 3.0." q 5
            [Retriever.mk_doc Examples.cgpa_sentence (Some Examples.chunk_meta)
                              "chunk_0" (Some (1 # 4)%Q)]).
  split; [vm_compute; reflexivity|].
  split; [reflexivity|]. split; [discriminate|]. split; [reflexivity|].
  unfold success_answer. cbn [metadata].
  now rewrite !lookup_insert_ne, lookup_empty by discriminate.
Qed.

(** C6: a question the scope gate rejects is answered at once, with no
    call to the embedder, the index or the generation model; the answer is
    the fixed refusal message, without citations or sources, and
    [guardrail_triggered] is true. *)
Theorem rejected_question_refused (self : t) (question : string)
        (top_k max_tokens : Z) (temperature : Q) (tr : trace) :
  ScopeValidator.accepted (scope_validator self) question = false ->
  exists a,
    generate_answer self question top_k max_tokens temperature tr = (tr, Ok a)
    /\ answer a = Config.GUARDRAIL_MESSAGE
    /\ citations a = []
    /\ sources a = []
    /\ metadata a !! "guardrail_triggered" = Some (VBool true).
Proof.
  intros Hv. exists (refused_answer Config.GUARDRAIL_MESSAGE question).
  rewrite generate_answer_run. unfold run_by_branch. rewrite Hv.
  repeat split.
Qed.

Lemma rejected_question_refused_witness :
  let self := Examples.generator
                (Examples.retriever_with Examples.working_embedder (1 # 4))
                Examples.echo_llm in
  let q := Examples.weather_question in
  ScopeValidator.accepted (scope_validator self) q = false
  /\ exists a,
       generate_answer self q 5 512 (3 # 10) [] = ([], Ok a)
       /\ answer a = "I only answer department information.".
Proof.
  intros self q.
  assert (Hv : ScopeValidator.accepted (scope_validator self) q = false)
    by (vm_compute; reflexivity).
  split; [exact Hv|].
  destruct (rejected_question_refused self q 5 512 (3 # 10) [] Hv)
    as (a & Hrun & Htext & _).
  exists a. split; [exact Hrun | exact Htext].
Defined.

End Orchestrator.

(* ===================================================================== *)
(** * The examples of the test suite and of the sources *)
(* ===================================================================== *)

Module Tests.
Import PyStr Py VectorStoreTypes Eff Examples.

(** [test_department_question_accepted] *)
Example department_questions_accepted :
  forallb (ScopeValidator.accepted default_validator)
    [ "What programs does the Computer Science department offer?";
      "Who is the dean of Electrical Engineering?";
      "What are the admission requirements for M.Sc. programs?";
      "Tell me about the faculty in the department.";
      "What is the eligibility criteria for Ph.D. programs?" ] = true.
Proof. vm_compute. reflexivity. Qed.

(** The questions of [test_out_of_scope_question_rejected].  Matching is
    by substring, so [programming] matches the keyword [program]: one
    match for five tokens is above the threshold. *)
Example out_of_scope_questions :
  map (ScopeValidator.validate_and_respond default_validator)
    [ "What is the weather today?";
      "How do I cook pasta?";
      "What is the capital of France?";
      "Who won the cricket match?" ]
  = repeat (false, Config.GUARDRAIL_MESSAGE) 4
  /\ ScopeValidator.is_department_related default_validator
       "Tell me about Python programming."
     = (true, (1 # 5)%Q, ScopeValidator.Matched 1 ["program"]).
Proof. split; vm_compute; reflexivity. Qed.

(** [test_edge_cases] *)
Example blank_questions_rejected :
  ScopeValidator.is_department_related default_validator ""
  = (false, 0%Q, ScopeValidator.EmptyQuestion)
  /\ ScopeValidator.is_department_related default_validator "   "
     = (false, 0%Q, ScopeValidator.EmptyQuestion)
  /\ ScopeValidator.is_department_related default_validator "?!"
     = (false, 0%Q, ScopeValidator.NoValidWords).
Proof. repeat split; vm_compute; reflexivity. Qed.

(** [test_keyword_matching] *)
Example keyword_matching :
  ScopeValidator.is_department_related default_validator
    "What programs does the engineering department offer?"
  = (true, (4 # 7)%Q,
     ScopeValidator.Matched 4 ["program"; "programs"; "department"; "engineering"]).
Proof. vm_compute. reflexivity. Qed.

(** Windows of three words with one word of overlap. *)
Example chunk_by_words_eight_words :
  TextChunker.chunk_by_words (TextChunker.mk 3 1) "a b c d e f g h"
  = Some ["a b c"; "c d e"; "e f g"; "g h"].
Proof. vm_compute. reflexivity. Qed.

(** The contract [0 <= overlap] matters: with a negative overlap the
    stride is longer than the window and words are skipped. *)
Example chunk_by_words_negative_overlap :
  TextChunker.chunk_by_words (TextChunker.mk 2 (-2)) "a b c d" = Some ["a b"].
Proof. vm_compute. reflexivity. Qed.

(** With [overlap = chunk_size] the loop of the source does not return. *)
Example chunk_by_words_no_stride :
  TextChunker.chunk_by_words (TextChunker.mk 3 3) "a b c d e f g h" = None.
Proof. vm_compute. reflexivity. Qed.

Example chunk_by_sentences_packs :
  TextChunker.chunk_by_sentences (TextChunker.mk 3 1) "a b. c d. e f g h. i"
  = ["a b."; "c d."; "e f g h."; "i"].
Proof. vm_compute. reflexivity. Qed.

Example split_sections_headings :
  TextChunker.split_sections "a Department of CS" = ["a "; "Department of CS"]
  /\ TextChunker.split_sections "Department ofx" = ["Department ofx"]
  /\ TextChunker.split_sections "12.3. a" = [""; "12.3. a"].
Proof. repeat split; vm_compute; reflexivity. Qed.

Example expand_query_two_groups :
  Retriever._expand_query "Faculty and Admission"
  = "Faculty and Admission eligibility criteria admission requirements faculty members professors".
Proof. vm_compute. reflexivity. Qed.

Example format_context_empty : Retriever.format_context [] = "".
Proof. reflexivity. Qed.

(** The end-to-end run of the sources on the admission question: three
    external calls, one citation, relevance [1 - 1/4]. *)
Example admission_question_answered :
  let self := generator (retriever_with working_embedder (1 # 4)) echo_llm in
  exists tr a,
    AnswerGenerator.generate_answer self admission_question 5 512 (3 # 10) []
    = (tr, Ok a)
    /\ length tr = 3%nat
    /\ AnswerGenerator.citations a = [cgpa_sentence]
    /\ map AnswerGenerator.relevance_score (AnswerGenerator.sources a) = [(3 # 4)%Q]
    /\ AnswerGenerator.metadata a !! "retrieval_count" = Some (VInt 1)
    /\ AnswerGenerator.metadata a !! "guardrail_triggered" = Some (VBool false).
Proof.
  intros self. eexists _, _. split; [vm_compute; reflexivity|].
  repeat split; vm_compute; reflexivity.
Qed.

End Tests.

(* ===================================================================== *)
(** * More on the scope gate *)
(* ===================================================================== *)

Module ScopeGateMore.
Import PyStr StringFacts ScopeValidator ScopeGate.

Lemma lower_char_space (c : ascii) : is_space (lower_char c) = is_space c.
Proof.
  destruct c as [[] [] [] [] [] [] [] []]; vm_compute; reflexivity.
Qed.

Lemma lower_char_idem (c : ascii) : lower_char (lower_char c) = lower_char c.
Proof.
  destruct c as [[] [] [] [] [] [] [] []]; vm_compute; reflexivity.
Qed.

Lemma lower_idem (s : string) : lower (lower s) = lower s.
Proof.
  unfold lower. rewrite chars_str, map_map. f_equal.
  apply map_ext. intros c. apply lower_char_idem.
Qed.

Lemma blank_lower (s : string) : blank (lower s) = blank s.
Proof.
  unfold blank. rewrite chars_lower.
  induction (chars s) as [|c r IH]; simpl; [reflexivity|].
  now rewrite lower_char_space, IH.
Qed.

Lemma blank_test_eq (s : string) :
  (is_empty s || is_empty (strip s))%bool = blank s.
Proof.
  unfold blank. destruct (forallb is_space (chars s)) eqn:E.
  - now apply blank_test.
  - destruct (is_empty s || is_empty (strip s))%bool eqn:F; [|reflexivity].
    apply blank_test in F. congruence.
Qed.

(** The classification as a function of the blank test and of the
    lower-cased question. *)
Lemma classify_by_lower (v : t) (question : string) :
  is_department_related v question
  = if blank (lower question) then (false, 0%Q, EmptyQuestion)
    else match findall_words (lower question) with
         | [] => (false, 0%Q, NoValidWords)
         | w :: ws =>
             let matches := keyword_matches v (lower question) in
             let n := length (w :: ws) in
             ((Qle_bool (threshold v) (ratio (length matches) n)
               || Nat.leb 2 (length matches))%bool,
              ratio (length matches) n,
              match matches with
              | [] => NoKeywordMatches
              | _ => Matched (length matches) (firstn 5 matches)
              end)
         end.
Proof.
  unfold is_department_related. rewrite blank_test_eq, blank_lower.
  destruct (blank question); [reflexivity|].
  destruct (findall_words (lower question)); reflexivity.
Qed.

(** The result of [is_department_related] depends on the question only
    up to letter case. *)
Theorem classification_case_insensitive (v : t) (q q' : string) :
  lower q = lower q' ->
  is_department_related v q = is_department_related v q'.
Proof. intros H. now rewrite !classify_by_lower, H. Qed.

Lemma classification_case_insensitive_witness :
  let v := Examples.default_validator in
  lower "PhD FEES" = lower "phd fees"
  /\ is_department_related v "PhD FEES" = is_department_related v "phd fees".
Proof.
  intros v.
  assert (H : lower "PhD FEES" = lower "phd fees") by reflexivity.
  split; [exact H | exact (classification_case_insensitive v _ _ H)].
Defined.

Lemma in_firstn {A} (n : nat) (l : list A) (x : A) :
  In x (firstn n l) -> In x l.
Proof.
  intros H. rewrite <- (firstn_skipn n l). apply in_or_app. now left.
Qed.

Lemma ratio_zero (n : nat) : (ratio 0 n == 0)%Q.
Proof. reflexivity. Qed.

Lemma ratio_pos (m n : nat) : (0 < m)%nat -> (0 < ratio m n)%Q.
Proof. intros H. unfold ratio, Qlt. simpl. lia. Qed.

Lemma matches_are_keywords (v : t) (ql k : string) :
  In k (keyword_matches v ql) <-> In k (keywords_lower v) /\ contains k ql = true.
Proof. unfold keyword_matches. rewrite List.filter_In. reflexivity. Qed.

(** With a positive threshold a question is accepted only if one of the
    configured keywords occurs in it. *)
Theorem accepted_needs_keyword (v : t) (question : string) :
  (0 < threshold v)%Q ->
  accepted v question = true ->
  exists keyword,
    In keyword (keywords_lower v) /\ contains keyword (lower question) = true.
Proof.
  intros Hth. unfold accepted. rewrite classify_by_lower.
  destruct (blank (lower question)); [discriminate|].
  destruct (findall_words (lower question)) as [|w ws]; [discriminate|].
  cbv zeta. cbn [fst].
  destruct (keyword_matches v (lower question)) as [|k ks] eqn:Hm.
  - cbn [length Nat.leb]. rewrite orb_false_r. intros H.
    apply Qle_bool_iff in H. exfalso.
    apply (Qlt_not_le _ _ Hth). now rewrite <- (ratio_zero (length (w :: ws))).
  - intros _. exists k. apply matches_are_keywords. rewrite Hm. now left.
Qed.

Lemma accepted_needs_keyword_witness :
  let v := Examples.default_validator in
  let q := "Who is the dean of Electrical Engineering?" in
  (0 < threshold v)%Q /\ accepted v q = true
  /\ exists keyword,
       In keyword (keywords_lower v) /\ contains keyword (lower q) = true.
Proof.
  intros v q.
  assert (H1 : (0 < threshold v)%Q) by reflexivity.
  assert (H2 : accepted v q = true) by (vm_compute; reflexivity).
  split; [exact H1|]. split; [exact H2|].
  exact (accepted_needs_keyword v q H1 H2).
Defined.

(** The score is never negative, and it is zero exactly when the input
    is blank, has no word token, or contains no configured keyword. *)
Theorem score_zero_iff (v : t) (question : string) :
  (0 <= score v question)%Q
  /\ ((score v question == 0)%Q
      <-> blank question = true \/ token_count question = 0%nat
          \/ keyword_matches v (lower question) = []).
Proof.
  unfold score, token_count. rewrite classify_by_lower, blank_lower.
  destruct (blank question).
  { split; [apply Qle_refl|]. split; [auto | reflexivity]. }
  destruct (findall_words (lower question)) as [|w ws].
  { split; [apply Qle_refl|]. split; [auto | reflexivity]. }
  cbv zeta. cbn [fst snd].
  destruct (keyword_matches v (lower question)) as [|k ks].
  { split; [discriminate|]. split; [auto | reflexivity]. }
  assert (Hp : (0 < ratio (length (k :: ks)) (length (w :: ws)))%Q)
    by (apply ratio_pos; simpl; lia).
  split; [now apply Qlt_le_weak|]. split.
  - intros H. rewrite H in Hp. discriminate.
  - intros [H|[H|H]]; discriminate.
Qed.

(** When the reason reports matches, its count is the number of matching
    keywords and its preview holds the first five of them at most, each a
    configured keyword that occurs in the lower-cased question. *)
Theorem reason_preview (v : t) (question : string) (b : bool) (s : Q)
        (n : nat) (preview : list string) :
  is_department_related v question = (b, s, Matched n preview) ->
  n = length (keyword_matches v (lower question))
  /\ (1 <= n)%nat
  /\ length preview = Nat.min 5 n
  /\ preview = firstn 5 (keyword_matches v (lower question))
  /\ Forall (fun k => In k (keywords_lower v) /\ contains k (lower question) = true)
            preview.
Proof.
  rewrite classify_by_lower.
  destruct (blank (lower question)); [discriminate|].
  destruct (findall_words (lower question)) as [|w ws]; [discriminate|].
  cbv zeta. destruct (keyword_matches v (lower question)) as [|k ks] eqn:Hm;
    [discriminate|].
  intros [= _ _ <- <-]. split; [reflexivity|]. split; [simpl; lia|].
  split; [simpl; now rewrite length_firstn|]. split; [reflexivity|].
  apply List.Forall_forall. intros x Hx. apply matches_are_keywords.
  rewrite Hm. now apply (in_firstn 5).
Qed.

Lemma reason_preview_witness :
  let v := Examples.default_validator in
  let q := "What are the admission requirements for M.Sc. programs?" in
  exists b s n preview,
    is_department_related v q = (b, s, Matched n preview)
    /\ n = 6%nat /\ length preview = 5%nat.
Proof.
  intros v q.
  destruct (is_department_related v q) as [[b s] r] eqn:E.
  assert (Hr : exists n preview, r = Matched n preview).
  { vm_compute in E. injection E as _ _ <-. eauto. }
  destruct Hr as (n & preview & ->).
  destruct (reason_preview v q b s n preview E) as (Hn & _ & Hl & _).
  exists b, s, n, preview. split; [reflexivity|].
  assert (H6 : n = 6%nat) by (rewrite Hn; vm_compute; reflexivity).
  split; [exact H6|]. rewrite Hl, H6. reflexivity.
Defined.

(** [add_keywords] does not remove repetitions: the number of matches
    after the extension is the number before plus the number of added
    keywords that occur in the question, whether or not they were
    configured already. *)
Theorem add_keywords_count (v : t) (new_keywords : list string) (question : string) :
  consistent v ->
  length (keyword_matches (add_keywords v new_keywords) (lower question))
  = (length (keyword_matches v (lower question))
     + length (List.filter (fun k => contains (lower k) (lower question))
                           new_keywords))%nat.
Proof.
  intros Hc. rewrite keyword_matches_add by exact Hc.
  rewrite length_app. f_equal.
  induction new_keywords as [|k r IH]; simpl; [reflexivity|].
  destruct (contains (lower k) (lower question)); simpl; now rewrite IH.
Qed.

Lemma add_keywords_count_witness :
  let v := Examples.default_validator in
  let q := "What is the fee?" in
  consistent v
  /\ length (keyword_matches v (lower q)) = 1%nat
  /\ length (keyword_matches (add_keywords v ["fee"]) (lower q)) = 2%nat.
Proof.
  intros v q.
  assert (Hc : consistent v) by reflexivity.
  assert (H1 : length (keyword_matches v (lower q)) = 1%nat)
    by (vm_compute; reflexivity).
  split; [exact Hc|]. split; [exact H1|].
  rewrite (add_keywords_count v ["fee"] q Hc), H1. reflexivity.
Defined.

End ScopeGateMore.

(* ===================================================================== *)
(** * More on the chunker *)
(* ===================================================================== *)

Module ChunkingMore.
Import PyStr StringFacts PySlice TextChunker Chunking SentencePacking.

Lemma runs_app_sep (p : ascii -> bool) (sep : ascii) (a b cur : list ascii) :
  p sep = false ->
  runs p (a ++ sep :: b) cur = runs p a cur ++ runs p b [].
Proof.
  intros Hs. revert cur. induction a as [|x a IH]; intros cur; simpl.
  - rewrite Hs. destruct cur; reflexivity.
  - destruct (p x); [apply IH|]. destruct cur; simpl; now rewrite IH.
Qed.

Lemma split_append_space (a b : string) :
  split (a ++ " " ++ b)%string = split a ++ split b.
Proof.
  unfold split. rewrite !chars_append. change (chars " ") with [" "%char].
  cbn [app]. rewrite runs_app_sep by reflexivity. apply map_app.
Qed.

(** The words of a joined list are the words of its elements. *)
Lemma split_join_words (l : list string) :
  split (join " " l) = flat_map split l.
Proof.
  induction l as [|w r IH]; [reflexivity|].
  destruct r as [|w' r'].
  - simpl. now rewrite app_nil_r.
  - change (join " " (w :: w' :: r'))
      with (w ++ " " ++ join " " (w' :: r'))%string.
    rewrite split_append_space, IH. reflexivity.
Qed.

Lemma word_count_join (group : list string) :
  word_count (join " " group) = total_words group.
Proof.
  unfold word_count. rewrite split_join_words.
  induction group as [|s r IH]; [reflexivity|].
  simpl. rewrite length_app, Nat2Z.inj_add, IH. reflexivity.
Qed.

Lemma total_words_app (a b : list string) :
  total_words (a ++ b) = total_words a + total_words b.
Proof.
  induction a as [|s r IH]; simpl; [reflexivity|]. rewrite IH. lia.
Qed.

(** The packing loop keeps whole sentences in order: the closed groups
    followed by the open group are the sentences read so far; no closed
    group is empty; a group exceeds [chunk_size] only if it is a single
    sentence; the counter is the word count of the open group. *)
Lemma pack_fold (c : t) (sentences : list string) :
  forall (groups : list (list string)) (cur : list string),
    Forall (fun g => g <> []) groups ->
    Forall (sized c) groups ->
    (total_words cur <= chunk_size c \/ (length cur <= 1)%nat) ->
    exists groups' cur',
      fold_left (pack_step c) sentences
                (map (join " ") groups, cur, total_words cur)
      = (map (join " ") groups', cur', total_words cur')
      /\ Forall (fun g => g <> []) groups'
      /\ Forall (sized c) groups'
      /\ (total_words cur' <= chunk_size c \/ (length cur' <= 1)%nat)
      /\ (cur' = [] -> cur = [] /\ sentences = [])
      /\ concat groups' ++ cur' = concat groups ++ cur ++ sentences.
Proof.
  induction sentences as [|s r IH]; intros groups cur Hne Hsz Hcur.
  - exists groups, cur. simpl. rewrite app_nil_r. repeat split; auto.
  - cbn [fold_left]. unfold pack_step at 2. fold (word_count s).
    destruct (total_words cur + word_count s <=? chunk_size c) eqn:E.
    + apply Z.leb_le in E.
      replace (total_words cur + word_count s) with (total_words (cur ++ [s]))
        by (rewrite total_words_app; simpl; lia).
      destruct (IH groups (cur ++ [s]) Hne Hsz) as (g' & c' & H1 & H2 & H3 & H4 & H5 & H6).
      { left. rewrite total_words_app. simpl. lia. }
      exists g', c'. split; [exact H1|]. split; [exact H2|]. split; [exact H3|].
      split; [exact H4|]. split.
      { intros Hc. destruct (H5 Hc) as [Hx _]. destruct cur; discriminate. }
      rewrite H6, <- !app_assoc. reflexivity.
    + apply Z.leb_gt in E.
      replace (word_count s) with (total_words [s]) by (simpl; lia).
      assert (Hstep : (match cur with
                       | [] => map (join " ") groups
                       | _ :: _ => map (join " ") groups ++ [join " " cur]
                       end) = map (join " ") (closing groups cur)).
      { destruct cur; [reflexivity|]. unfold closing. now rewrite map_app. }
      rewrite Hstep.
      destruct (IH (closing groups cur) [s]) as (g' & c' & H1 & H2 & H3 & H4 & H5 & H6).
      { destruct cur; [exact Hne|]. unfold closing.
        apply Forall_app. split; [exact Hne|]. constructor; [discriminate | constructor]. }
      { destruct cur as [|x cur']; [exact Hsz|]. unfold closing.
        apply Forall_app. split; [exact Hsz|]. constructor; [|constructor].
        destruct Hcur as [Hcur|Hcur]; [now left|]. right.
        simpl in Hcur. destruct cur'; [reflexivity | simpl in Hcur; lia]. }
      { right. simpl. lia. }
      exists g', c'. split; [exact H1|]. split; [exact H2|]. split; [exact H3|].
      split; [exact H4|]. split.
      { intros Hc. destruct (H5 Hc) as [Hx _]. discriminate. }
      rewrite H6. destruct cur; unfold closing.
      * reflexivity.
      * rewrite concat_app. simpl. rewrite app_nil_r, <- !app_assoc. reflexivity.
Qed.

Lemma sentence_pieces_nonnil (cs : list ascii) (pe sep : bool) (cur : list ascii) :
  sentence_pieces cs pe sep cur <> [].
Proof.
  revert pe sep cur. induction cs as [|ch r IH]; intros pe sep cur; simpl;
    [discriminate|].
  destruct (is_space ch); [|apply IH].
  destruct sep; [apply IH|]. destruct pe; [discriminate | apply IH].
Qed.

Lemma split_sentences_nonnil (text : string) : split_sentences text <> [].
Proof.
  unfold split_sentences. intros H. apply map_eq_nil in H.
  revert H. apply sentence_pieces_nonnil.
Qed.

(** The chunks of [chunk_by_sentences] as groups of sentences. *)
Lemma chunk_by_sentences_groups (c : t) (text : string) :
  exists groups,
    chunk_by_sentences c text = map (join " ") groups
    /\ Forall (fun g => g <> []) groups
    /\ Forall (sized c) groups
    /\ concat groups = split_sentences text.
Proof.
  unfold chunk_by_sentences.
  destruct (pack_fold c (split_sentences text) [] [])
    as (groups & cur & Hrun & Hne & Hsz & Hcur & Hnil & Hcat);
    [constructor | constructor | right; simpl; lia |].
  change (map (join " ") [], [], total_words [])
    with (@nil string, @nil string, 0) in Hrun.
  rewrite Hrun. exists (closing groups cur). simpl in Hcat.
  destruct cur as [|s cur'].
  - simpl. rewrite app_nil_r in Hcat. auto.
  - unfold closing. rewrite map_app. split; [reflexivity|].
    split; [apply Forall_app; split; [exact Hne | constructor; [discriminate | constructor]]|].
    split.
    + apply Forall_app. split; [exact Hsz|]. constructor; [|constructor].
      destruct Hcur as [Hcur|Hcur]; [now left|]. right.
      destruct cur'; [reflexivity | simpl in Hcur; lia].
    + rewrite concat_app. simpl. now rewrite app_nil_r.
Qed.

(** Sentence splitting removes whitespace only: the words of the pieces
    are the words of the text. *)
Lemma sentence_pieces_words (cs : list ascii) :
  forall (pe sep : bool) (cur : list ascii),
    (sep = true -> cur = []) ->
    flat_map (fun piece => runs not_space piece []) (sentence_pieces cs pe sep cur)
    = runs not_space (cur ++ cs) [].
Proof.
  induction cs as [|ch r IH]; intros pe sep cur Hsep.
  - simpl. now rewrite !app_nil_r.
  - cbn [sentence_pieces]. destruct (is_space ch) eqn:Hch.
    + assert (Hns : not_space ch = false) by (unfold not_space; now rewrite Hch).
      destruct sep.
      * rewrite (Hsep eq_refl). rewrite IH by reflexivity.
        simpl. now rewrite Hns.
      * destruct pe.
        -- cbn [flat_map]. rewrite IH by reflexivity.
           now rewrite runs_app_sep by exact Hns.
        -- rewrite IH by discriminate. now rewrite <- app_assoc.
    + rewrite IH by discriminate. now rewrite <- app_assoc.
Qed.

Lemma split_sentences_words (text : string) :
  flat_map split (split_sentences text) = split text.
Proof.
  unfold split_sentences. unfold split at 2.
  change (chars text) with ([] ++ chars text) at 2.
  rewrite <- (sentence_pieces_words (chars text) false false []) by discriminate.
  induction (sentence_pieces (chars text) false false []) as [|p r IH];
    [reflexivity|].
  simpl. rewrite IH, map_app. unfold split at 1. now rewrite chars_str.
Qed.

Lemma flat_map_split_joins (groups : list (list string)) :
  flat_map split (map (join " ") groups) = flat_map split (concat groups).
Proof.
  induction groups as [|g r IH]; [reflexivity|].
  simpl. rewrite split_join_words, IH, flat_map_app. reflexivity.
Qed.

(** Sentence-packing mode keeps every word of the text, in order: the
    words of the chunks, chunk after chunk, are the words of the text. *)
Theorem chunk_by_sentences_keeps_words (c : t) (text : string) :
  flat_map split (chunk_by_sentences c text) = split text.
Proof.
  destruct (chunk_by_sentences_groups c text) as (groups & -> & _ & _ & Hcat).
  now rewrite flat_map_split_joins, Hcat, split_sentences_words.
Qed.

(** A sentence is never cut: every chunk is the join of consecutive whole
    sentences of the text, and the chunks together use every sentence once,
    in order. *)
Theorem chunk_by_sentences_whole_sentences (c : t) (text : string) :
  exists groups,
    chunk_by_sentences c text = map (join " ") groups
    /\ Forall (fun group => group <> []) groups
    /\ concat groups = split_sentences text.
Proof.
  destruct (chunk_by_sentences_groups c text) as (groups & H1 & H2 & _ & H4).
  now exists groups.
Qed.

(** A chunk has more than [chunk_size] words only if it is a single
    sentence of the text. *)
Theorem chunk_by_sentences_size (c : t) (text : string) :
  Forall (fun chunk =>
            word_count chunk <= chunk_size c
            \/ In chunk (split_sentences text))
         (chunk_by_sentences c text).
Proof.
  destruct (chunk_by_sentences_groups c text) as (groups & -> & _ & Hsz & Hcat).
  rewrite <- Hcat. clear Hcat.
  induction groups as [|g r IH]; [constructor|].
  inversion Hsz as [|? ? Hg Hr]; subst. simpl. constructor.
  - destruct Hg as [Hg|Hg].
    + left. now rewrite word_count_join.
    + right. destruct g as [|s [|s' g']]; try discriminate.
      simpl. now left.
  - eapply List.Forall_impl; [|exact (IH Hr)].
    intros chunk [H|H]; [now left|]. right. apply in_or_app. now right.
Qed.

(** Sentence-packing mode never returns the empty sequence, whatever the
    text. *)
Theorem chunk_by_sentences_never_empty (c : t) (text : string) :
  chunk_by_sentences c text <> [].
Proof.
  destruct (chunk_by_sentences_groups c text) as (groups & -> & _ & _ & Hcat).
  intros H. apply map_eq_nil in H. subst groups.
  now apply (split_sentences_nonnil text).
Qed.


Lemma section_pieces_concat (cs : list ascii) :
  forall (prev : option ascii) (cur : list ascii),
    concat (section_pieces prev cs cur) = cur ++ cs.
Proof.
  induction cs as [|ch r IH]; intros prev cur.
  - simpl. now rewrite !app_nil_r.
  - cbn [section_pieces]. destruct (heading_here prev (ch :: r)).
    + simpl. now rewrite IH.
    + rewrite IH. now rewrite <- app_assoc.
Qed.

Lemma chars_join_empty (l : list string) :
  chars (join "" l) = concat (map chars l).
Proof.
  induction l as [|w r IH]; [reflexivity|].
  destruct r as [|w' r'].
  - simpl. now rewrite app_nil_r.
  - change (join "" (w :: w' :: r')) with (w ++ "" ++ join "" (w' :: r'))%string.
    rewrite chars_append.
    change ("" ++ join "" (w' :: r'))%string with (join "" (w' :: r')).
    now rewrite IH.
Qed.

(** Section splitting cuts the text without removing anything: the
    pieces put together again are the text. *)
Theorem split_sections_round_trip (text : string) :
  join "" (split_sections text) = text.
Proof.
  rewrite <- (str_chars (join "" (split_sections text))).
  rewrite chars_join_empty. unfold split_sections. rewrite map_map.
  rewrite (map_ext _ (fun p => p)) by (intros p; apply chars_str).
  rewrite map_id, section_pieces_concat. apply str_chars.
Qed.

Lemma runs_concat (p : ascii -> bool) (cs cur : list ascii) :
  concat (runs p cs cur) = cur ++ List.filter p cs.
Proof.
  revert cur. induction cs as [|ch r IH]; intros cur; simpl.
  - destruct cur; simpl; now rewrite ?app_nil_r.
  - destruct (p ch).
    + rewrite IH, <- app_assoc. reflexivity.
    + destruct cur; simpl; now rewrite IH.
Qed.

(** The non-whitespace characters of a text are those of its words. *)
Lemma ink_split (s : string) : ink s = flat_map chars (split s).
Proof.
  unfold ink, split. rewrite flat_map_concat_map, map_map.
  rewrite (map_ext _ (fun p => p)) by (intros p; apply chars_str).
  rewrite map_id, runs_concat. reflexivity.
Qed.

Lemma flat_map_flat_map {A B C} (f : A -> list B) (g : B -> list C) (l : list A) :
  flat_map g (flat_map f l) = flat_map (fun x => flat_map g (f x)) l.
Proof.
  induction l as [|x r IH]; [reflexivity|].
  simpl. now rewrite flat_map_app, IH.
Qed.

Lemma flat_map_ink (l : list string) :
  flat_map ink l = flat_map chars (flat_map split l).
Proof.
  rewrite flat_map_flat_map. apply flat_map_ext. intros s. apply ink_split.
Qed.

Lemma filter_drop_space (cs : list ascii) :
  List.filter not_space (drop_space cs) = List.filter not_space cs.
Proof.
  induction cs as [|ch r IH]; [reflexivity|].
  simpl. unfold not_space at 2. destruct (is_space ch) eqn:E; [exact IH|].
  simpl. unfold not_space at 1. now rewrite E.
Qed.

Lemma ink_strip (s : string) : ink (strip s) = ink s.
Proof.
  unfold ink, strip. rewrite chars_str.
  rewrite filter_rev, filter_drop_space, filter_rev, rev_involutive.
  apply filter_drop_space.
Qed.

Lemma ink_sentences (c : t) (text : string) :
  flat_map ink (chunk_by_sentences c text) = ink text.
Proof.
  rewrite flat_map_ink, ink_split. f_equal.
  destruct (chunk_by_sentences_groups c text) as (groups & -> & _ & _ & Hcat).
  now rewrite flat_map_split_joins, Hcat, split_sentences_words.
Qed.

Lemma ink_concat (pieces : list (list ascii)) :
  List.filter not_space (concat pieces)
  = flat_map (fun p => ink (str p)) pieces.
Proof.
  induction pieces as [|p r IH]; [reflexivity|].
  simpl. rewrite List.filter_app, IH. unfold ink at 2. now rewrite chars_str.
Qed.

(** Section-aware mode, the one the ingestion pipeline uses, loses no
    character other than whitespace and keeps the order: the
    non-whitespace characters of the chunks, chunk after chunk, are those
    of the text. *)
Theorem chunk_by_sections_keeps_ink (c : t) (text : string) :
  flat_map ink (chunk_by_sections c text) = ink text
  /\ flat_map ink (chunk_text text (chunk_size c) (overlap c)) = ink text.
Proof.
  assert (H : forall c', flat_map ink (chunk_by_sections c' text) = ink text).
  { intros c'. unfold chunk_by_sections.
    destruct (split_sections text) as [|p1 [|p2 ps]] eqn:Hp;
      [apply ink_sentences | apply ink_sentences |].
    rewrite <- Hp. clear Hp p1 p2 ps.
    rewrite flat_map_flat_map.
    transitivity (flat_map ink (split_sections text)).
    - apply flat_map_ext. intros sec.
      destruct (is_empty (strip sec)) eqn:E.
      + rewrite <- (ink_strip sec). destruct (strip sec); [reflexivity | discriminate].
      + rewrite ink_sentences. apply ink_strip.
    - unfold split_sections. rewrite flat_map_concat_map, map_map.
      rewrite <- flat_map_concat_map, <- ink_concat, section_pieces_concat.
      reflexivity. }
  split; [apply H | apply H].
Qed.


(** Dropping the first [overlap] words of every chunk from [start] on
    gives the words of the text from [start + overlap] on. *)
Lemma words_loop_tail (c : t) (words : list string) (fuel : nat) :
  0 <= overlap c < chunk_size c ->
  Forall is_token words ->
  forall start,
    0 <= start < Z.of_nat (length words) ->
    Z.of_nat (length words) - start <= Z.of_nat fuel ->
    exists rest,
      words_loop fuel c words start [] = Some rest
      /\ flat_map (fun chunk => skipn (Z.to_nat (overlap c)) (split chunk)) rest
         = skipn (Z.to_nat (start + overlap c)) words.
Proof.
  intros Hc Htok. induction fuel as [|fuel IH]; intros start Hs Hf; [lia|].
  cbn [words_loop].
  destruct (Z.ltb_spec start (Z.of_nat (length words))) as [_|]; [|lia].
  destruct (Z.le_gt_cases (Z.of_nat (length words) - start) (chunk_size c))
    as [Hlast|Hmore].
  - rewrite Z.min_r by lia.
    replace (Z.of_nat (length words) >=? Z.of_nat (length words)) with true
      by (rewrite Z.geb_leb; symmetry; apply Z.leb_refl).
    eexists. split; [reflexivity|]. cbn [app flat_map].
    rewrite split_join by now apply slice_tokens.
    rewrite slice_in_range by lia. rewrite app_nil_r.
    rewrite firstn_all2 by (rewrite length_skipn; lia).
    rewrite skipn_skipn. f_equal. lia.
  - rewrite Z.min_l by lia.
    replace (start + chunk_size c >=? Z.of_nat (length words)) with false
      by (rewrite Z.geb_leb; symmetry; apply Z.leb_gt; lia).
    rewrite words_loop_acc.
    destruct (IH (start + (chunk_size c - overlap c))) as (rest & Hrun & Hflat);
      [lia | lia |].
    rewrite Hrun. eexists. split; [reflexivity|]. cbn [app flat_map].
    rewrite Hflat. rewrite split_join by now apply slice_tokens.
    rewrite slice_in_range by lia.
    rewrite skipn_firstn_comm, skipn_skipn.
    set (X := skipn (Z.to_nat (start + overlap c)) words).
    replace (Z.to_nat (overlap c) + Z.to_nat start)%nat
      with (Z.to_nat (start + overlap c)) by lia.
    replace (skipn (Z.to_nat (start + (chunk_size c - overlap c) + overlap c)) words)
      with (skipn (Z.to_nat (start + chunk_size c - start) - Z.to_nat (overlap c)) X)
      by (unfold X; rewrite skipn_skipn; f_equal; lia).
    apply firstn_skipn.
Qed.

(** Fixed-window mode loses no word: the first chunk followed by every
    later chunk without its first [overlap] words gives back the words of
    the text, in order. *)
Theorem chunk_by_words_reassembles (c : t) (text : string) (chunks : list string) :
  0 <= overlap c < chunk_size c ->
  chunk_by_words c text = Some chunks ->
  match chunks with
  | [] => split text = []
  | first :: others =>
      split first
      ++ flat_map (fun chunk => skipn (Z.to_nat (overlap c)) (split chunk)) others
      = split text
  end.
Proof.
  intros Hc. unfold chunk_by_words.
  destruct (is_empty text) eqn:He.
  { intros [= <-]. now apply split_empty_text. }
  destruct (split text) as [|w ws] eqn:Hw; [intros [= <-]; reflexivity|].
  rewrite <- Hw. intros Hrun.
  assert (HW : 0 < Z.of_nat (length (split text))) by (rewrite Hw; simpl; lia).
  destruct (words_loop_tail c (split text) (S (length (split text))) Hc
              (split_tokens text) 0) as (rest & Hrun' & Hflat); [lia | lia |].
  destruct (words_loop_spec c (split text) Hc (S (length (split text))) 0)
    as (rest2 & Hrun2 & Hnth & _); [lia | lia |].
  rewrite Hrun in Hrun', Hrun2. injection Hrun' as <-. injection Hrun2 as <-.
  destruct chunks as [|first others].
  { simpl in Hflat. rewrite Z.add_0_l in Hflat. symmetry in Hflat.
    assert (Hlen : length (skipn (Z.to_nat (overlap c)) (split text)) = 0%nat)
      by now rewrite Hflat.
    rewrite length_skipn in Hlen.
    cbn [words_loop] in Hrun.
    destruct (Z.ltb_spec 0 (Z.of_nat (length (split text)))); [|lia].
    destruct (_ >=? _); [discriminate|].
    rewrite words_loop_acc in Hrun.
    destruct (words_loop _ _ _ _ []); discriminate. }
  destruct (Hnth 0%nat first eq_refl) as [Hfirst _].
  cbn [flat_map] in Hflat. rewrite Z.add_0_l in Hflat.
  rewrite <- (firstn_skipn (Z.to_nat (overlap c)) (split first)).
  rewrite <- app_assoc, Hflat.
  transitivity (firstn (Z.to_nat (overlap c)) (split text)
                ++ skipn (Z.to_nat (overlap c)) (split text));
    [|apply firstn_skipn].
  f_equal. rewrite Hfirst. unfold window.
  cbn [Z.of_nat]. rewrite Z.mul_0_l, !Z.add_0_l.
  rewrite split_join by apply slice_tokens, split_tokens.
  rewrite slice_in_range by lia.
  simpl Z.to_nat. rewrite skipn_O, firstn_firstn, Z.sub_0_r.
  destruct (Z.le_gt_cases (chunk_size c) (Z.of_nat (length (split text)))).
  - rewrite Z.min_l by lia. f_equal. lia.
  - rewrite Z.min_r by lia.
    destruct (Nat.le_gt_cases (length (split text)) (Z.to_nat (overlap c))).
    + rewrite !firstn_all2 by lia. reflexivity.
    + f_equal. lia.
Qed.

Lemma chunk_by_words_reassembles_witness :
  let c := mk 3 1 in
  let text := "a b c d e f g h" in
  0 <= overlap c < chunk_size c
  /\ chunk_by_words c text = Some ["a b c"; "c d e"; "e f g"; "g h"]
  /\ split "a b c"
     ++ flat_map (fun chunk => skipn 1 (split chunk)) ["c d e"; "e f g"; "g h"]
     = split text.
Proof.
  intros c text.
  assert (H1 : 0 <= overlap c < chunk_size c) by (simpl; lia).
  assert (H2 : chunk_by_words c text = Some ["a b c"; "c d e"; "e f g"; "g h"])
    by (vm_compute; reflexivity).
  split; [exact H1|]. split; [exact H2|].
  exact (chunk_by_words_reassembles c text _ H1 H2).
Defined.

(** [chunk_by_words] fails to return in one case only: the overlap is
    not smaller than the chunk size and the text has more words than one
    chunk holds.  Then no amount of fuel lets the loop end; in every other
    case the function returns. *)
Theorem chunk_by_words_termination (c : t) (text : string) :
  let W := Z.of_nat (length (split text)) in
  (chunk_size c <= overlap c /\ 0 < W /\ chunk_size c < W ->
   forall fuel, words_loop fuel c (split text) 0 [] = None)
  /\ (~ (chunk_size c <= overlap c /\ 0 < W /\ chunk_size c < W) ->
      exists chunks, chunk_by_words c text = Some chunks).
Proof.
  cbv zeta. split.
  - intros (Hc & HW & HS) fuel. apply words_loop_no_progress; lia.
  - intros Hn.
    destruct (Z.lt_ge_cases 0 (chunk_size c - overlap c)) as [Hpos|Hneg].
    { now apply chunk_by_words_returns. }
    unfold chunk_by_words. destruct (is_empty text); [eauto|].
    cbn [words_loop].
    destruct (Z.ltb_spec 0 (Z.of_nat (length (split text)))); [|eauto].
    rewrite Z.add_0_l, Z.min_r by lia.
    replace (Z.of_nat (length (split text)) >=? Z.of_nat (length (split text)))
      with true by (rewrite Z.geb_leb; symmetry; apply Z.leb_refl).
    eauto.
Qed.

Lemma chunk_by_words_termination_witness :
  let c := mk 3 3 in
  let text := "a b c d e f g h" in
  (chunk_size c <= overlap c
   /\ 0 < Z.of_nat (length (split text))
   /\ chunk_size c < Z.of_nat (length (split text)))
  /\ words_loop 1000 c (split text) 0 [] = None.
Proof.
  intros c text.
  assert (H : chunk_size c <= overlap c
              /\ 0 < Z.of_nat (length (split text))
              /\ chunk_size c < Z.of_nat (length (split text)))
    by (vm_compute; repeat split; discriminate).
  split; [exact H|].
  exact (proj1 (chunk_by_words_termination c text) H 1000%nat).
Defined.

End ChunkingMore.

(* ===================================================================== *)
(** * More on retrieval *)
(* ===================================================================== *)

Module RetrievalMore.
Import PyStr StringFacts Py VectorStoreTypes Eff Retriever Retrieval Assembly.

Lemma assemble_doc_run (results : query_result) (i : nat) (text : string) (tr : trace) :
  assemble_doc results i text tr
  = (tr, match doc_at results i text with
         | Some d => Ok d
         | None => Raise index_error
         end).
Proof.
  unfold assemble_doc, doc_at, field_at, mbind, M_bind, bind, mret, M_ret, ret,
    of_option, raise.
  destruct (metadatas results) as [ms|]; [destruct (nth_error ms i)|];
    try reflexivity;
    (destruct (ids results) as [l|]; [destruct (nth_error l i)|];
     try reflexivity;
     (destruct (distances results) as [ds|]; [destruct (nth_error ds i)|];
      reflexivity)).
Qed.

Lemma assemble_from_run (results : query_result) (texts : list string) :
  forall (i : nat) (tr : trace),
    assemble_from results i texts tr
    = (tr, match docs_from results i texts with
           | Some ds => Ok ds
           | None => Raise index_error
           end).
Proof.
  induction texts as [|text r IH]; intros i tr; [reflexivity|].
  cbn [assemble_from docs_from]. unfold mbind, M_bind, bind.
  rewrite assemble_doc_run. destruct (doc_at results i text); [|reflexivity].
  rewrite IH. destruct (docs_from results (S i) r); reflexivity.
Qed.

(** [retrieve] in one equation: the embedding call, the index query, and
    the pure assembly of the result. *)
Lemma retrieve_run (self : t) (query : string) (top_k_arg : option Z) (tr : trace) :
  let p := params_for self query top_k_arg in
  retrieve self query top_k_arg tr
  = (tr ++ [EvEmbed (_expand_query query); EvQuery p],
     match VectorStore.collection_query (vector_store self) p with
     | Ok results =>
         match docs_from results 0 (documents results) with
         | Some ds => Ok ds
         | None => Raise index_error
         end
     | Raise e => Raise e
     end).
Proof.
  cbv zeta. rewrite retrieve_after_embedding. cbv zeta. fold (params_for self query top_k_arg).
  unfold query_and_assemble, mbind, M_bind, bind, call.
  rewrite <- app_assoc. cbn [app].
  destruct (VectorStore.collection_query _ _) as [results|e]; [|reflexivity].
  now rewrite assemble_from_run.
Qed.


(** Every retrieval makes exactly two external calls, in this order and
    whatever their outcome: one embedding of the expanded question and one
    index query; an exception of the index query is raised to the caller. *)
Theorem retrieve_calls (self : t) (query : string) (top_k_arg : option Z) (tr : trace) :
  let p := params_for self query top_k_arg in
  fst (retrieve self query top_k_arg tr)
  = tr ++ [EvEmbed (_expand_query query); EvQuery p]
  /\ (forall e, VectorStore.collection_query (vector_store self) p = Raise e ->
        snd (retrieve self query top_k_arg tr) = Raise e).
Proof.
  cbv zeta. rewrite retrieve_run. cbv zeta. split; [reflexivity|].
  intros e ->. reflexivity.
Qed.

Lemma retrieve_calls_witness :
  let failing_index := VectorStore.mk (fun _ => Raise (Exception "index offline")) in
  let self := Retriever.mk failing_index Examples.working_embedder 3 false in
  let q := Examples.admission_question in
  VectorStore.collection_query (vector_store self) (params_for self q (Some 5))
  = Raise (Exception "index offline")
  /\ snd (retrieve self q (Some 5) []) = Raise (Exception "index offline").
Proof.
  intros failing_index self q.
  assert (H : VectorStore.collection_query (vector_store self)
                (params_for self q (Some 5)) = Raise (Exception "index offline"))
    by reflexivity.
  split; [exact H|].
  exact (proj2 (retrieve_calls self q (Some 5) []) _ H).
Defined.

Lemma doc_at_fields (results : query_result) (i : nat) (text : string) (d : doc) :
  doc_at results i text = Some d ->
  content d = text
  /\ field_at (metadatas results) i ∅ = metadata d
  /\ field_at (ids results) i ("doc_" ++ str_of_nat i)%string = Some (id d)
  /\ field_at (distances results) i 0%Q = distance d.
Proof.
  unfold doc_at.
  destruct (field_at (metadatas results) i ∅); [|discriminate].
  destruct (field_at (ids results) i _); [|discriminate].
  destruct (field_at (distances results) i 0%Q); [|discriminate].
  intros [= <-]. repeat split.
Qed.

Lemma docs_from_spec (results : query_result) (texts : list string) :
  forall (i : nat) (ds : list doc),
    docs_from results i texts = Some ds ->
    map content ds = texts
    /\ forall j d, nth_error ds j = Some d ->
         doc_at results (i + j) (content d) = Some d.
Proof.
  induction texts as [|text r IH]; intros i ds; cbn [docs_from].
  - intros [= <-]. split; [reflexivity|]. intros [|j] d; discriminate.
  - destruct (doc_at results i text) as [d0|] eqn:Hd; [|discriminate].
    destruct (docs_from results (S i) r) as [ds'|] eqn:Hr; [|discriminate].
    intros [= <-]. destruct (IH _ _ Hr) as [Hmap Hnth].
    destruct (doc_at_fields _ _ _ _ Hd) as [Hc _].
    split; [simpl; now rewrite Hc, Hmap|].
    intros [|j] d H; simpl in H.
    + injection H as <-. rewrite Nat.add_0_r, Hc. exact Hd.
    + rewrite Nat.add_succ_r. now apply Hnth.
Qed.

(** [retrieve] returns the results of the index unchanged and in the
    order of the index: the contents are the returned documents, and the
    metadata, id and distance of the document at position [i] are the
    entries at position [i] of the corresponding lists (an empty
    dictionary, [doc_i] and 0 for a list the index did not return). *)
Theorem retrieve_keeps_index_order (self : t) (query : string)
        (top_k_arg : option Z) (tr tr' : trace) (docs : list doc) :
  retrieve self query top_k_arg tr = (tr', Ok docs) ->
  exists results,
    VectorStore.collection_query (vector_store self)
      (params_for self query top_k_arg) = Ok results
    /\ map content docs = documents results
    /\ forall i d, nth_error docs i = Some d ->
         field_at (metadatas results) i ∅ = metadata d
         /\ field_at (ids results) i ("doc_" ++ str_of_nat i)%string = Some (id d)
         /\ field_at (distances results) i 0%Q = distance d.
Proof.
  rewrite retrieve_run. cbv zeta.
  destruct (VectorStore.collection_query _ _) as [results|e]; [|discriminate].
  destruct (docs_from results 0 (documents results)) as [ds|] eqn:Hds;
    [|discriminate].
  intros [= _ <-]. exists results. split; [reflexivity|].
  destruct (docs_from_spec _ _ _ _ Hds) as [Hmap Hnth].
  split; [exact Hmap|]. intros i d Hd.
  destruct (doc_at_fields _ _ _ _ (Hnth i d Hd)) as (_ & H1 & H2 & H3).
  auto.
Qed.

Lemma retrieve_keeps_index_order_witness :
  let self := Examples.retriever_with Examples.working_embedder (1 # 4) in
  let q := Examples.admission_question in
  exists tr docs,
    retrieve self q (Some 5) [] = (tr, Ok docs)
    /\ map content docs = [Examples.cgpa_sentence].
Proof.
  intros self q.
  destruct (retrieve self q (Some 5) []) as [tr [docs|e]] eqn:Hr;
    [|vm_compute in Hr; discriminate].
  exists tr, docs. split; [reflexivity|].
  destruct (retrieve_keeps_index_order self q (Some 5) [] tr docs Hr)
    as (results & Hq & Hmap & _).
  rewrite Hmap. vm_compute in Hq. injection Hq as <-. reflexivity.
Defined.

Lemma covers_le {A} (field : option (list A)) (m n : nat) :
  (m <= n)%nat -> covers field n = true -> covers field m = true.
Proof.
  destruct field as [l|]; simpl; [|reflexivity].
  intros H Hn. apply Nat.leb_le. apply Nat.leb_le in Hn. lia.
Qed.

Lemma complete_le (results : query_result) (m n : nat) :
  (m <= n)%nat -> complete results n = true -> complete results m = true.
Proof.
  unfold complete. intros H Hn.
  apply andb_true_iff in Hn as [Hn H3]. apply andb_true_iff in Hn as [H1 H2].
  now rewrite (covers_le _ m n H H1), (covers_le _ m n H H2), (covers_le _ m n H H3).
Qed.

Lemma complete_zero (results : query_result) : complete results 0 = true.
Proof.
  unfold complete, covers.
  destruct (metadatas results), (ids results), (distances results); reflexivity.
Qed.

Lemma field_at_covers {A} (field : option (list A)) (i : nat) (default : A) :
  covers field (S i) = true <-> field_at field i default <> None.
Proof.
  destruct field as [l|]; simpl; [|split; [discriminate | reflexivity]].
  rewrite nth_error_Some. destruct (length l); [split; [discriminate | lia]|].
  rewrite Nat.leb_le. lia.
Qed.

Lemma doc_at_complete (results : query_result) (i : nat) (text : string) :
  complete results (S i) = true <-> doc_at results i text <> None.
Proof.
  unfold complete, doc_at. rewrite !andb_true_iff.
  rewrite (field_at_covers (metadatas results) i ∅).
  rewrite (field_at_covers (ids results) i ("doc_" ++ str_of_nat i)%string).
  rewrite (field_at_covers (distances results) i 0%Q).
  destruct (field_at (metadatas results) i ∅);
    destruct (field_at (ids results) i _);
    destruct (field_at (distances results) i 0%Q);
    split; try discriminate; intros H; try tauto;
    repeat split; try discriminate; exfalso; now apply H.
Qed.

Lemma docs_from_complete (results : query_result) (texts : list string) :
  forall i,
    docs_from results i texts <> None
    <-> texts = [] \/ complete results (i + length texts) = true.
Proof.
  induction texts as [|text r IH]; intros i; cbn [docs_from length].
  - split; [now left | discriminate].
  - pose proof (doc_at_complete results i text) as Hd.
    pose proof (IH (S i)) as Hr.
    replace (i + S (length r))%nat with (S i + length r)%nat by lia.
    destruct (doc_at results i text) as [d|].
    + destruct (docs_from results (S i) r) as [ds|].
      * split; [|discriminate]. intros _. right.
        assert (Hr' : r = [] \/ complete results (S i + length r) = true)
          by (apply (proj1 Hr); congruence).
        destruct Hr' as [->|H]; [|exact H].
        simpl. rewrite Nat.add_0_r. apply Hd. discriminate.
      * split; [congruence|]. intros [H|H]; [discriminate|].
        exfalso. apply (proj2 Hr); [now right | reflexivity].
    + split; [congruence|]. intros [H|H]; [discriminate|].
      exfalso. apply (proj1 Hd); [|reflexivity].
      apply (complete_le results (S i) (S i + length r)); [lia | exact H].
Qed.

(** [retrieve] raises [IndexError] exactly when the index answers with a
    metadata, id or distance list that is shorter than its document list;
    otherwise it returns one document per result. *)
Theorem retrieve_index_error (self : t) (query : string) (top_k_arg : option Z)
        (tr : trace) (results : query_result) :
  VectorStore.collection_query (vector_store self)
    (params_for self query top_k_arg) = Ok results ->
  (complete results (length (documents results)) = false ->
   snd (retrieve self query top_k_arg tr) = Raise index_error)
  /\ (complete results (length (documents results)) = true ->
      exists docs,
        snd (retrieve self query top_k_arg tr) = Ok docs
        /\ length docs = length (documents results)).
Proof.
  intros Hq. rewrite retrieve_run. cbv zeta. rewrite Hq. cbn [snd].
  pose proof (docs_from_complete results (documents results) 0) as Hc.
  cbn [Nat.add] in Hc.
  destruct (docs_from results 0 (documents results)) as [ds|] eqn:Hds.
  - split.
    + intros Hf.
      assert (Hc' : documents results = []
                    \/ complete results (length (documents results)) = true)
        by (apply (proj1 Hc); congruence).
      destruct Hc' as [Hnil|Ht]; [|congruence].
      rewrite Hnil, complete_zero in Hf. discriminate.
    + intros _. exists ds. split; [reflexivity|].
      destruct (docs_from_spec _ _ _ _ Hds) as [Hmap _].
      now rewrite <- Hmap, length_map.
  - split; [reflexivity|]. intros Ht. exfalso.
    apply (proj2 Hc); [now right | reflexivity].
Qed.

Lemma retrieve_index_error_witness :
  let short_index :=
    VectorStore.mk (fun _ =>
      Ok (mk_result ["first chunk"; "second chunk"] None None (Some [(1 # 4)%Q]))) in
  let self := Retriever.mk short_index Examples.working_embedder 3 false in
  let q := Examples.admission_question in
  let results := mk_result ["first chunk"; "second chunk"] None None (Some [(1 # 4)%Q]) in
  VectorStore.collection_query (vector_store self) (params_for self q (Some 5))
  = Ok results
  /\ complete results (length (documents results)) = false
  /\ snd (retrieve self q (Some 5) []) = Raise index_error.
Proof.
  intros short_index self q results.
  assert (H1 : VectorStore.collection_query (vector_store self)
                 (params_for self q (Some 5)) = Ok results) by reflexivity.
  assert (H2 : complete results (length (documents results)) = false)
    by reflexivity.
  split; [exact H1|]. split; [exact H2|].
  exact (proj1 (retrieve_index_error self q (Some 5) [] results H1) H2).
Defined.


Lemma is_prefix_app (a b : list ascii) : is_prefix a (a ++ b) = true.
Proof.
  induction a as [|x a IH]; [reflexivity|].
  simpl. now rewrite Ascii.eqb_refl, IH.
Qed.

Lemma is_prefix_app_r (x a b : list ascii) :
  is_prefix x a = true -> is_prefix x (a ++ b) = true.
Proof.
  revert a. induction x as [|c x IH]; intros a H; [reflexivity|].
  destruct a as [|d a]; [discriminate|]. simpl in *.
  apply andb_true_iff in H as [H1 H2]. now rewrite H1, IH.
Qed.

Lemma contains_chars_app_l (x a b : list ascii) :
  contains_chars x a = true -> contains_chars x (a ++ b) = true.
Proof.
  induction a as [|d a IH]; simpl; intros H.
  - rewrite orb_false_r in H. destruct x; [|discriminate].
    destruct b; reflexivity.
  - apply orb_true_iff in H as [H|H]; apply orb_true_iff.
    + left. now apply (is_prefix_app_r x (d :: a) b).
    + right. now apply IH.
Qed.

Lemma contains_chars_app_r (x a b : list ascii) :
  contains_chars x b = true -> contains_chars x (a ++ b) = true.
Proof.
  intros H. induction a as [|d a IH]; [exact H|].
  simpl. rewrite IH. apply orb_true_r.
Qed.

Lemma contains_chars_refl (x : list ascii) : contains_chars x x = true.
Proof.
  destruct x as [|c x]; [reflexivity|].
  cbn [contains_chars]. apply orb_true_iff. left.
  rewrite <- (app_nil_r (c :: x)) at 2. apply is_prefix_app.
Qed.

(** [x in (a + x + b)] *)
Lemma contains_middle (x a b : string) : contains x (a ++ x ++ b)%string = true.
Proof.
  unfold contains. rewrite !Chunking.chars_append.
  apply contains_chars_app_r, contains_chars_app_l, contains_chars_refl.
Qed.

Lemma contains_append_l (x a b : string) :
  contains x a = true -> contains x (a ++ b)%string = true.
Proof. unfold contains. rewrite Chunking.chars_append. apply contains_chars_app_l. Qed.

Lemma contains_append_r (x a b : string) :
  contains x b = true -> contains x (a ++ b)%string = true.
Proof. unfold contains. rewrite Chunking.chars_append. apply contains_chars_app_r. Qed.

Lemma length_chars_append (a b : string) :
  length (chars (a ++ b)%string) = (length (chars a) + length (chars b))%nat.
Proof. now rewrite Chunking.chars_append, length_app. Qed.

(** Query expansion only appends: the question is a prefix of the
    expanded query, and the query is unchanged exactly when none of the
    eight trigger terms occurs in the lower-cased question. *)
Theorem expand_query_appends (query : string) :
  let ql := lower query in
  let triggered :=
    (contains "admission" ql || contains "requirement" ql
     || contains "eligibility" ql || contains "faculty" ql
     || contains "professor" ql || contains "staff" ql
     || contains "program" ql || contains "degree" ql)%bool in
  is_prefix (chars query) (chars (_expand_query query)) = true
  /\ (_expand_query query = query <-> triggered = false)
  /\ (triggered = true ->
      (length (chars query) < length (chars (_expand_query query)))%nat).
Proof.
  cbv zeta. unfold _expand_query.
  assert (Hlong : forall tail : string,
             is_prefix (chars query) (chars (query ++ " " ++ tail)%string) = true
             /\ (length (chars query)
                 < length (chars (query ++ " " ++ tail)%string))%nat).
  { intros tail. rewrite Chunking.chars_append. split; [apply is_prefix_app|].
    rewrite length_app, Chunking.chars_append, length_app. simpl. lia. }
  assert (Hne : forall tail : string, (query ++ " " ++ tail)%string <> query).
  { intros tail H. destruct (Hlong tail) as [_ Hl]. rewrite H in Hl. lia. }
  assert (Hsame : is_prefix (chars query) (chars query) = true).
  { rewrite <- (app_nil_r (chars query)) at 2. apply is_prefix_app. }
  destruct (contains "admission" (lower query)),
    (contains "requirement" (lower query)),
    (contains "eligibility" (lower query)),
    (contains "faculty" (lower query)),
    (contains "professor" (lower query)),
    (contains "staff" (lower query)),
    (contains "program" (lower query)),
    (contains "degree" (lower query)); cbn [app orb];
    first
      [ split; [exact Hsame|]; split; [tauto | discriminate]
      | split; [apply Hlong|];
        split; [split; [intros H; exfalso; revert H; apply Hne | discriminate]
               | intros _; apply Hlong] ].
Qed.

Lemma expand_query_appends_witness :
  let q := "Who teaches the degree courses?" in
  contains "degree" (lower q) = true
  /\ (length (chars q) < length (chars (_expand_query q)))%nat.
Proof.
  intros q.
  assert (H : contains "degree" (lower q) = true) by (vm_compute; reflexivity).
  split; [exact H|].
  apply (proj2 (proj2 (expand_query_appends q))).
  rewrite H. now rewrite !orb_true_r.
Defined.

Lemma join_head_not_empty (sep w : string) (r : list string) :
  is_empty w = false -> is_empty (join sep (w :: r)) = false.
Proof.
  intros H. destruct w; [discriminate|]. destruct r; reflexivity.
Qed.

Lemma contains_join (sep x : string) (l : list string) :
  In x l -> contains x (join sep l) = true.
Proof.
  induction l as [|w r IH]; [intros []|].
  intros [->|Hin].
  - destruct r.
    + unfold contains. apply contains_chars_refl.
    + change (join sep (x :: s :: r)) with (x ++ sep ++ join sep (s :: r))%string.
      apply contains_append_l. unfold contains. apply contains_chars_refl.
  - destruct r; [destruct Hin|].
    change (join sep (w :: s :: r)) with (w ++ sep ++ join sep (s :: r))%string.
    apply contains_append_r, contains_append_r. now apply IH.
Qed.

Lemma is_prefix_split (a b : list ascii) :
  is_prefix a b = true -> exists post, b = a ++ post.
Proof.
  revert b. induction a as [|x a IH]; intros b H; [now exists b|].
  destruct b as [|y b]; [discriminate|]. simpl in H.
  apply andb_true_iff in H as [Hxy Hp]. apply Ascii.eqb_eq in Hxy. subst y.
  destruct (IH b Hp) as [post ->]. now exists post.
Qed.

(** [a in b] holds exactly when [b] is [pre + a + post]. *)
Lemma contains_chars_split (a b : list ascii) :
  contains_chars a b = true <-> exists pre post, b = pre ++ a ++ post.
Proof.
  split.
  - induction b as [|y b IH]; simpl; intros H.
    + rewrite orb_false_r in H. destruct (is_prefix_split _ _ H) as [post ->].
      now exists [], post.
    + apply orb_true_iff in H as [H|H].
      * destruct (is_prefix_split _ _ H) as [post ->]. now exists [], post.
      * destruct (IH H) as (pre & post & ->). now exists (y :: pre), post.
  - intros (pre & post & ->).
    apply contains_chars_app_r, contains_chars_app_l, contains_chars_refl.
Qed.

Lemma contains_trans (a b c : string) :
  contains a b = true -> contains b c = true -> contains a c = true.
Proof.
  unfold contains. rewrite !contains_chars_split.
  intros (p1 & q1 & ->) (p2 & q2 & ->).
  exists (p2 ++ p1), (q1 ++ q2). now rewrite <- !app_assoc.
Qed.

Lemma context_blocks_nth (docs : list doc) :
  forall k i d,
    nth_error docs i = Some d ->
    nth_error (context_blocks k docs) i = Some (context_block (k + i) d).
Proof.
  induction docs as [|d0 r IH]; intros k [|i] d H; try discriminate; simpl in *.
  - injection H as <-. now rewrite Nat.add_0_r.
  - rewrite (IH (S k) i d H). f_equal. f_equal. lia.
Qed.

Lemma context_block_in_context (docs : list doc) (i : nat) (d : doc) :
  nth_error docs i = Some d ->
  contains (context_block (i + 1) d) (format_context docs) = true.
Proof.
  intros H.
  assert (Hin : In (context_block (1 + i) d) (context_blocks 1 docs)).
  { eapply nth_error_In. now apply context_blocks_nth. }
  replace (i + 1)%nat with (1 + i)%nat by lia.
  destruct docs as [|d0 r]; [destruct i; discriminate|].
  unfold format_context. now apply contains_join.
Qed.

Lemma format_context_empty_iff (docs : list doc) :
  is_empty (format_context docs) = true <-> docs = [].
Proof.
  destruct docs as [|d r]; [split; reflexivity|].
  split; [|discriminate]. intros H. exfalso.
  unfold format_context in H. cbn [context_blocks] in H.
  rewrite join_head_not_empty in H; [discriminate | reflexivity].
Qed.

(** The context is empty exactly when there is no document; otherwise the
    document at position [i] (from 0) contributes the block
    [[Context i+1]], a line feed, its content and a line feed, and the
    context contains that block. *)
Theorem format_context_blocks (docs : list doc) :
  (is_empty (format_context docs) = true <-> docs = [])
  /\ forall i d,
       nth_error docs i = Some d ->
       contains ("[Context " ++ str_of_nat (i + 1) ++ "]" ++ String "010" ""
                 ++ content d ++ String "010" "")%string
                (format_context docs) = true.
Proof.
  split; [apply format_context_empty_iff|].
  intros i d H. fold (context_block (i + 1) d).
  now apply context_block_in_context.
Qed.

Lemma format_context_blocks_witness :
  let d := mk_doc Examples.cgpa_sentence (Some Examples.chunk_meta) "chunk_0"
                  (Some (1 # 4)%Q) in
  nth_error [d] 0 = Some d
  /\ contains ("[Context 1]" ++ String "010" "" ++ Examples.cgpa_sentence
               ++ String "010" "")%string (format_context [d]) = true.
Proof.
  intros d.
  assert (H : nth_error [d] 0 = Some d) by reflexivity.
  split; [exact H|].
  exact (proj2 (format_context_blocks [d]) 0%nat d H).
Defined.

Lemma content_in_context (docs : list doc) (d : doc) :
  In d docs -> contains (content d) (format_context docs) = true.
Proof.
  intros Hin. apply In_nth_error in Hin as [i Hi].
  eapply contains_trans; [|exact (context_block_in_context docs i d Hi)].
  unfold context_block. apply contains_append_r, contains_append_r, contains_append_r.
  apply contains_append_r. apply contains_append_l. unfold contains.
  apply contains_chars_refl.
Qed.

End RetrievalMore.

(* ===================================================================== *)
(** * More on the answer orchestrator *)
(* ===================================================================== *)

Module OrchestratorMore.
Import PyStr StringFacts Py VectorStoreTypes Eff AnswerGenerator Orchestrator
       Retrieval Assembly RetrievalMore SingleAnswer.

Lemma generate_run (llm : LLMClient.t) (prompt : string) (max_tokens : Z)
      (temperature : Q) (tr : trace) :
  LLMClient.generate llm prompt max_tokens temperature tr
  = (tr ++ [EvGenerate prompt max_tokens temperature],
     LLMClient.backend llm prompt max_tokens temperature).
Proof. unfold LLMClient.generate. now rewrite try_except_reraise. Qed.

(** The whole run of [generate_answer] in terms of the outcomes of the
    three external services. *)
Lemma generate_answer_outcome (self : t) (question : string) (top_k max_tokens : Z)
      (temperature : Q) (tr : trace) :
  let p := params_for (retriever self) question (Some top_k) in
  let tr1 := tr ++ [EvEmbed (Retriever._expand_query question); EvQuery p] in
  generate_answer self question top_k max_tokens temperature tr
  = if ScopeValidator.accepted (scope_validator self) question then
      match snd (Retriever.retrieve (retriever self) question (Some top_k) tr) with
      | Raise e => (tr1, Ok (error_answer e question))
      | Ok [] => (tr1, Ok (no_context_answer question))
      | Ok (d :: ds) =>
          let prompt :=
            LLMClient.create_prompt (Retriever.format_context (d :: ds)) question in
          (tr1 ++ [EvGenerate prompt max_tokens temperature],
           match LLMClient.backend (llm_client self) prompt max_tokens temperature with
           | Ok text => Ok (success_answer text question top_k (d :: ds))
           | Raise e => Ok (error_answer e question)
           end)
      end
    else (tr, Ok (refused_answer Config.GUARDRAIL_MESSAGE question)).
Proof.
  cbv zeta. rewrite generate_answer_run. unfold run_by_branch.
  destruct (ScopeValidator.accepted (scope_validator self) question); [|reflexivity].
  unfold Retriever.retrieve_and_format, mbind, M_bind, bind, mret, M_ret, ret.
  rewrite retrieve_run. cbv zeta. cbn [snd].
  destruct (match VectorStore.collection_query _ _ with Ok _ => _ | Raise e => _ end)
    as [[|d ds]|e]; [reflexivity | | reflexivity].
  assert (He : is_empty (Retriever.format_context (d :: ds)) = false).
  { destruct (is_empty (Retriever.format_context (d :: ds))) eqn:E; [|reflexivity].
    apply format_context_empty_iff in E. discriminate. }
  rewrite He, generate_run.
  destruct (LLMClient.backend _ _ _ _); reflexivity.
Qed.


(** [generate_answer] calls each external service at most once per
    question and in the order embedder, index, generation model: no call
    for a rejected question, otherwise the embedding and the index query,
    and the generation call only when retrieval returned at least one
    document, with the prompt built from those documents. *)
Theorem generate_answer_calls (self : t) (question : string) (top_k max_tokens : Z)
        (temperature : Q) (tr : trace) :
  let embed := EvEmbed (Retriever._expand_query question) in
  let query := EvQuery (params_for (retriever self) question (Some top_k)) in
  let retrieved := snd (Retriever.retrieve (retriever self) question (Some top_k) tr) in
  exists calls,
    fst (generate_answer self question top_k max_tokens temperature tr) = tr ++ calls
    /\ (ScopeValidator.accepted (scope_validator self) question = false -> calls = [])
    /\ (ScopeValidator.accepted (scope_validator self) question = true ->
        (calls = [embed; query]
         /\ (retrieved = Ok [] \/ exists e, retrieved = Raise e))
        \/ (exists d ds,
              retrieved = Ok (d :: ds)
              /\ calls = [embed; query;
                          EvGenerate
                            (LLMClient.create_prompt
                               (Retriever.format_context (d :: ds)) question)
                            max_tokens temperature])).
Proof.
  cbv zeta. rewrite generate_answer_outcome. cbv zeta.
  destruct (ScopeValidator.accepted (scope_validator self) question).
  - destruct (snd (Retriever.retrieve _ _ _ tr)) as [[|d ds]|e].
    + eexists. split; [reflexivity|]. split; [discriminate|]. intros _. left. eauto.
    + eexists. split; [cbn [fst]; rewrite <- app_assoc; reflexivity|].
      split; [discriminate|]. intros _. right. exists d, ds. split; reflexivity.
    + eexists. split; [reflexivity|]. split; [discriminate|]. intros _. left. eauto.
  - exists []. split; [cbn [fst]; now rewrite app_nil_r|].
    split; [reflexivity | discriminate].
Qed.

Lemma generate_answer_calls_witness :
  let self := Examples.generator
                (Examples.retriever_with Examples.working_embedder (1 # 4))
                Examples.echo_llm in
  ScopeValidator.accepted (scope_validator self) Examples.weather_question = false
  /\ fst (generate_answer self Examples.weather_question 5 512 (3 # 10) []) = [].
Proof.
  intros self.
  assert (H : ScopeValidator.accepted (scope_validator self)
                Examples.weather_question = false) by (vm_compute; reflexivity).
  split; [exact H|].
  destruct (generate_answer_calls self Examples.weather_question 5 512 (3 # 10) [])
    as (calls & Hc & Hrej & _).
  rewrite Hc, (Hrej H). reflexivity.
Defined.

(** The "no relevant information" answer is given exactly when the
    question passes the guardrail and retrieval succeeds with no document. *)
Theorem no_context_iff_nothing_retrieved (self : t) (question : string)
        (top_k max_tokens : Z) (temperature : Q) (tr : trace) :
  ScopeValidator.accepted (scope_validator self) question = true ->
  let p := params_for (retriever self) question (Some top_k) in
  generate_answer self question top_k max_tokens temperature tr
  = (tr ++ [EvEmbed (Retriever._expand_query question); EvQuery p],
     Ok (no_context_answer question))
  <-> snd (Retriever.retrieve (retriever self) question (Some top_k) tr) = Ok [].
Proof.
  intros Hv. cbv zeta. rewrite generate_answer_outcome. cbv zeta. rewrite Hv.
  destruct (snd (Retriever.retrieve _ _ _ tr)) as [[|d ds]|e].
  - split; reflexivity.
  - split; [|discriminate]. intros [= H _]. exfalso.
    apply (f_equal (@length event)) in H. rewrite !length_app in H. simpl in H. lia.
  - split; [|discriminate]. intros H. inversion H.
Qed.

Lemma no_context_iff_nothing_retrieved_witness :
  let r := Retriever.mk Examples.empty_index Examples.working_embedder 3 false in
  let self := Examples.generator r Examples.echo_llm in
  let q := Examples.admission_question in
  ScopeValidator.accepted (scope_validator self) q = true
  /\ snd (generate_answer self q 5 512 (3 # 10) []) = Ok (no_context_answer q).
Proof.
  intros r self q.
  assert (H : ScopeValidator.accepted (scope_validator self) q = true)
    by (vm_compute; reflexivity).
  split; [exact H|].
  rewrite (proj2 (no_context_iff_nothing_retrieved self q 5 512 (3 # 10) [] H));
    reflexivity.
Defined.

(** In every answer the citations and the sources have the same length;
    [retrieval_count], when present, is that length; and an answer that
    carries [top_k] has at least one citation. *)
Theorem answer_counts_agree (self : t) (question : string) (top_k max_tokens : Z)
        (temperature : Q) (tr : trace) :
  exists tr' a,
    generate_answer self question top_k max_tokens temperature tr = (tr', Ok a)
    /\ length (citations a) = length (sources a)
    /\ (forall v, metadata a !! "retrieval_count" = Some v ->
          v = VInt (Z.of_nat (length (citations a))))
    /\ (is_Some (metadata a !! "top_k") -> citations a <> []).
Proof.
  rewrite generate_answer_outcome. cbv zeta.
  assert (Hr : forall msg, exists tr' a,
             (tr, Ok (refused_answer msg question)) = (tr', Ok a)
             /\ length (citations a) = length (sources a)
             /\ (forall v, metadata a !! "retrieval_count" = Some v ->
                   v = VInt (Z.of_nat (length (citations a))))
             /\ (is_Some (metadata a !! "top_k") -> citations a <> [])).
  { intros msg. eexists _, _. split; [reflexivity|]. split; [reflexivity|].
    unfold refused_answer. cbn [metadata citations]. split.
    - intros v. rewrite !lookup_insert_ne, lookup_empty by discriminate. discriminate.
    - rewrite !lookup_insert_ne, lookup_empty by discriminate. intros [x Hx].
      discriminate. }
  assert (He : forall (tr1 : trace) (e : exn), exists tr' a,
             (tr1, Ok (error_answer e question)) = (tr', Ok a)
             /\ length (citations a) = length (sources a)
             /\ (forall v, metadata a !! "retrieval_count" = Some v ->
                   v = VInt (Z.of_nat (length (citations a))))
             /\ (is_Some (metadata a !! "top_k") -> citations a <> [])).
  { intros tr1 e. eexists _, _. split; [reflexivity|]. split; [reflexivity|].
    unfold error_answer. cbn [metadata citations]. split.
    - intros v. rewrite !lookup_insert_ne, lookup_empty by discriminate. discriminate.
    - rewrite !lookup_insert_ne, lookup_empty by discriminate. intros [x Hx].
      discriminate. }
  destruct (ScopeValidator.accepted (scope_validator self) question); [|apply Hr].
  destruct (snd (Retriever.retrieve _ _ _ tr)) as [[|d ds]|e]; [| |apply He].
  - eexists _, _. split; [reflexivity|]. split; [reflexivity|].
    unfold no_context_answer. cbn [metadata citations]. split.
    + intros v. rewrite lookup_insert_ne, lookup_insert_eq by discriminate.
      now intros [= <-].
    + rewrite !lookup_insert_ne, lookup_empty by discriminate. intros [x Hx].
      discriminate.
  - destruct (LLMClient.backend _ _ _ _) as [text|e]; [|apply He].
    eexists _, _. split; [reflexivity|].
    unfold success_answer. cbn [metadata citations sources]. split.
    + now rewrite !length_map.
    + split.
      * intros v. rewrite lookup_insert_ne, lookup_insert_eq by discriminate.
        now intros [= <-].
      * intros _. discriminate.
Qed.

Lemma answer_counts_agree_witness :
  let self := Examples.generator
                (Examples.retriever_with Examples.working_embedder (1 # 4))
                Examples.echo_llm in
  exists tr' a,
    generate_answer self Examples.admission_question 5 512 (3 # 10) [] = (tr', Ok a)
    /\ is_Some (metadata a !! "top_k")
    /\ citations a = [Examples.cgpa_sentence]
    /\ length (sources a) = 1%nat
    /\ metadata a !! "retrieval_count" = Some (VInt 1).
Proof.
  intros self.
  destruct (answer_counts_agree self Examples.admission_question 5 512 (3 # 10) [])
    as (tr' & a & Hg & Hlen & Hcount & _).
  assert (Hc : citations a = [Examples.cgpa_sentence]).
  { apply (f_equal snd) in Hg. cbn [snd] in Hg.
    assert (E : match snd (generate_answer self Examples.admission_question
                             5 512 (3 # 10) []) with
                | Ok b => citations b = [Examples.cgpa_sentence]
                | Raise _ => False
                end) by (vm_compute; reflexivity).
    now rewrite Hg in E. }
  assert (Ht : match snd (generate_answer self Examples.admission_question
                            5 512 (3 # 10) []) with
               | Ok b => metadata b !! "top_k" = Some (VInt 5)
                         /\ exists v, metadata b !! "retrieval_count" = Some v
               | Raise _ => False
               end).
  { rewrite generate_answer_outcome. vm_compute. split; [reflexivity|]. eexists. reflexivity. }
  rewrite Hg in Ht. cbn [snd] in Ht. destruct Ht as [Ht [v Hv]].
  exists tr', a. split; [exact Hg|]. split; [now exists (VInt 5)|].
  split; [exact Hc|]. split; [now rewrite <- Hlen, Hc|].
  rewrite Hv. f_equal. rewrite (Hcount v Hv), Hc. reflexivity.
Defined.

(** The prompt given to the generation model contains the question and
    the context, hence the text of every document that is cited. *)
Theorem prompt_contains_citations (context question text : string) (top_k : Z)
        (docs : list Retriever.doc) :
  contains question (LLMClient.create_prompt context question) = true
  /\ contains context (LLMClient.create_prompt context question) = true
  /\ (forall citation,
        In citation (citations (success_answer text question top_k docs)) ->
        contains citation
          (LLMClient.create_prompt (Retriever.format_context docs) question) = true).
Proof.
  assert (Hc : forall ctx, contains ctx (LLMClient.create_prompt ctx question) = true).
  { intros ctx. unfold LLMClient.create_prompt.
    do 5 apply contains_append_r. apply contains_append_l.
    unfold contains. apply contains_chars_refl. }
  split.
  { unfold LLMClient.create_prompt.
    do 9 apply contains_append_r. apply contains_append_l.
    unfold contains. apply contains_chars_refl. }
  split; [apply Hc|].
  intros citation Hin. unfold success_answer in Hin. cbn [citations] in Hin.
  apply in_map_iff in Hin as (d & <- & Hd).
  apply (contains_trans _ (Retriever.format_context docs));
    [apply content_in_context; exact Hd | apply Hc].
Qed.

Lemma prompt_contains_citations_witness :
  let d := Retriever.mk_doc Examples.cgpa_sentence (Some Examples.chunk_meta)
                            "chunk_0" (Some (1 # 4)%Q) in
  In Examples.cgpa_sentence
     (citations (success_answer "ok" Examples.admission_question 5 [d]))
  /\ contains Examples.cgpa_sentence
       (LLMClient.create_prompt (Retriever.format_context [d])
                                Examples.admission_question) = true.
Proof.
  intros d.
  assert (H : In Examples.cgpa_sentence
                (citations (success_answer "ok" Examples.admission_question 5 [d])))
    by (simpl; now left).
  split; [exact H|].
  exact (proj2 (proj2 (prompt_contains_citations
                         "" Examples.admission_question "ok" 5 [d])) _ H).
Defined.

(** The answer does not depend on the calls made before. *)
Lemma answer_ignores_trace (self : t) (question : string) (top_k max_tokens : Z)
      (temperature : Q) (tr : trace) :
  snd (generate_answer self question top_k max_tokens temperature tr)
  = Ok (answer_to self top_k max_tokens temperature question).
Proof.
  unfold answer_to. rewrite !generate_answer_outcome. cbv zeta.
  rewrite !retrieve_run. cbv zeta. cbn [snd].
  destruct (ScopeValidator.accepted (scope_validator self) question); [|reflexivity].
  destruct (match VectorStore.collection_query _ _ with Ok _ => _ | Raise e => _ end)
    as [[|d ds]|e]; try reflexivity.
  cbn [snd]. destruct (LLMClient.backend _ _ _ _); reflexivity.
Qed.

(** [generate_answer_batch] never raises and answers the questions one by
    one and in order: the answer at each position is the answer the
    question gets when asked alone, so a failure on one question changes
    nothing for the others. *)
Theorem batch_answers_each_question (self : t) (questions : list string)
        (top_k max_tokens : Z) (temperature : Q) (tr : trace) :
  exists tr',
    generate_answer_batch self questions top_k max_tokens temperature tr
    = (tr', Ok (map (answer_to self top_k max_tokens temperature) questions)).
Proof.
  unfold generate_answer_batch. revert tr.
  induction questions as [|q r IH]; intros tr; [now exists tr|].
  cbn [mapM map]. unfold bind at 1.
  pose proof (answer_ignores_trace self q top_k max_tokens temperature tr) as Ha.
  destruct (generate_answer self q top_k max_tokens temperature tr) as [tr1 res].
  cbn [snd] in Ha. subst res.
  unfold bind at 1. destruct (IH tr1) as [tr2 ->]. now exists tr2.
Qed.

End OrchestratorMore.

(* ===================================================================== *)
(** * Ingestion *)
(* ===================================================================== *)

Module Ingestion.
Import PyStr StringFacts Py VectorStoreTypes ChunkMetadata Pipeline RetrievalMore.

Lemma to_uint_not_nil (n : nat) : Nat.to_uint n <> Decimal.Nil.
Proof.
  intros H. pose proof (DecimalNat.Unsigned.of_to n) as Hn. rewrite H in Hn.
  simpl in Hn. subst n. discriminate.
Qed.

(** The decimal rendering of a number determines the number. *)
Lemma str_of_nat_inj (a b : nat) : str_of_nat a = str_of_nat b -> a = b.
Proof.
  unfold str_of_nat. intros H.
  apply (f_equal NilZero.uint_of_string) in H.
  rewrite !NilZero.usu in H by apply to_uint_not_nil.
  injection H as H. now apply DecimalNat.Unsigned.to_uint_inj.
Qed.

Lemma numbered_NoDup (prefix : string) (n : nat) : List.NoDup (numbered prefix n).
Proof.
  unfold numbered. apply Finite.Injective_map_NoDup; [|apply seq_NoDup].
  intros a b H. apply String.app_inj in H. now apply str_of_nat_inj.
Qed.

Lemma numbered_nth (prefix : string) (n i : nat) :
  (i < n)%nat ->
  nth_error (numbered prefix n) i = Some (prefix ++ str_of_nat i)%string.
Proof.
  intros H. unfold numbered. rewrite nth_error_map.
  rewrite nth_error_seq. destruct (Nat.ltb_spec i n); [reflexivity | lia].
Qed.

Lemma length_metadatas_from (chunks : list string) :
  forall i, length (metadatas_from i chunks) = length chunks.
Proof. induction chunks as [|c r IH]; intros i; simpl; [reflexivity | now rewrite IH]. Qed.

Lemma metadatas_from_nth (chunks : list string) :
  forall i j chunk,
    nth_error chunks j = Some chunk ->
    nth_error (metadatas_from i chunks) j = Some (chunk_metadata (i + j) chunk).
Proof.
  induction chunks as [|c r IH]; intros i [|j] chunk H; try discriminate; simpl in *.
  - injection H as <-. now rewrite Nat.add_0_r.
  - rewrite (IH (S i) j chunk H). f_equal. f_equal. lia.
Qed.

(** What the pipeline hands to the index is aligned and uniquely named:
    one metadata record and one id per chunk, the id of the chunk at
    position [i] is [chunk_i], and no two chunks share an id. *)
Theorem pipeline_kwargs_aligned (chunks : list string) (embeddings : list embedding) :
  let k := pipeline_kwargs chunks embeddings in
  add_documents_arg k = chunks
  /\ length (add_metadatas k) = length chunks
  /\ length (add_ids k) = length chunks
  /\ List.NoDup (add_ids k)
  /\ forall i chunk, nth_error chunks i = Some chunk ->
       nth_error (add_ids k) i = Some ("chunk_" ++ str_of_nat i)%string
       /\ nth_error (add_metadatas k) i = Some (chunk_metadata i chunk).
Proof.
  cbv zeta. unfold pipeline_kwargs, build_add_kwargs. cbn.
  split; [reflexivity|]. split; [apply length_metadatas_from|].
  split; [unfold chunk_ids, numbered; now rewrite length_map, length_seq|].
  split; [apply numbered_NoDup|].
  intros i chunk H. split.
  - apply numbered_nth. apply nth_error_Some. congruence.
  - now apply (metadatas_from_nth chunks 0 i).
Qed.

Lemma pipeline_kwargs_aligned_witness :
  let chunks := ["Admission requirements."; "Faculty list."] in
  nth_error chunks 1 = Some "Faculty list."
  /\ nth_error (add_ids (pipeline_kwargs chunks [])) 1 = Some "chunk_1".
Proof.
  intros chunks.
  assert (H : nth_error chunks 1 = Some "Faculty list.") by reflexivity.
  split; [exact H|].
  destruct (pipeline_kwargs_aligned chunks []) as (_ & _ & _ & _ & Hn).
  exact (proj1 (Hn 1%nat _ H)).
Defined.

(** [add_documents] without ids and metadatas names the documents
    [doc_0], [doc_1], ..., all different, and gives the document at
    position [i] the metadata [source = uet_document], [chunk_id = i];
    given ids and metadatas are passed on untouched. *)
Theorem add_documents_defaults (documents : list string)
        (embeddings : option (list embedding)) :
  let k := build_add_kwargs documents None None embeddings in
  length (add_ids k) = length documents
  /\ length (add_metadatas k) = length documents
  /\ List.NoDup (add_ids k)
  /\ (forall i, (i < length documents)%nat ->
        nth_error (add_ids k) i = Some ("doc_" ++ str_of_nat i)%string
        /\ exists m, nth_error (add_metadatas k) i = Some m
                     /\ m !! "chunk_id" = Some (VInt (Z.of_nat i))
                     /\ m !! "source" = Some (VStr "uet_document"))
  /\ (forall ms ids,
        add_metadatas (build_add_kwargs documents (Some ms) (Some ids) embeddings) = ms
        /\ add_ids (build_add_kwargs documents (Some ms) (Some ids) embeddings) = ids).
Proof.
  cbv zeta. unfold build_add_kwargs. cbn.
  split; [unfold numbered; now rewrite length_map, length_seq|].
  split; [now rewrite length_map, length_seq|].
  split; [apply numbered_NoDup|].
  split; [|intros ms ids; split; reflexivity].
  intros i Hi. split; [now apply numbered_nth|].
  exists (default_metadata i). split.
  - rewrite nth_error_map, nth_error_seq.
    destruct (Nat.ltb_spec i (length documents)); [reflexivity | lia].
  - unfold default_metadata. split.
    + now rewrite lookup_insert_ne, lookup_insert_eq by discriminate.
    + now rewrite lookup_insert_eq.
Qed.

Lemma add_documents_defaults_witness :
  (1 < length ["a"; "b"; "c"])%nat
  /\ nth_error (add_ids (build_add_kwargs ["a"; "b"; "c"] None None None)) 1
     = Some "doc_1".
Proof.
  assert (H : (1 < length ["a"; "b"; "c"])%nat) by (simpl; lia).
  split; [exact H|].
  destruct (add_documents_defaults ["a"; "b"; "c"] None) as (_ & _ & _ & Hn & _).
  exact (proj1 (Hn 1%nat H)).
Defined.

(** A chunk ingested at position [i] is cited with that position: the
    source record built from its metadata has [chunk_id = i] and
    [source = uet_document], whatever [extract_metadata] found in the
    chunk, and never the defaults 0 and [unknown] by omission. *)
Theorem ingested_chunk_source_record (i : nat) (chunk text ident : string)
        (dist : option Q) :
  let d := Retriever.mk_doc text (Some (chunk_metadata i chunk)) ident dist in
  AnswerGenerator.chunk_id (AnswerGenerator.source_of d) = VInt (Z.of_nat i)
  /\ AnswerGenerator.source (AnswerGenerator.source_of d) = VStr "uet_document".
Proof.
  cbv zeta. unfold AnswerGenerator.source_of, chunk_metadata, get. cbn.
  rewrite lookup_insert_ne, lookup_insert_eq by discriminate.
  now rewrite lookup_insert_eq.
Qed.


Lemma span_spec (p : ascii -> bool) (cs : list ascii) :
  forall run rest,
    span p cs = (run, rest) -> cs = run ++ rest /\ forallb p run = true.
Proof.
  induction cs as [|ch r IH]; intros run rest; simpl.
  - intros [= <- <-]. split; reflexivity.
  - destruct (p ch) eqn:E.
    + destruct (span p r) as [run' rest']. intros [= <- <-].
      destruct (IH _ _ eq_refl) as [-> Hp]. split; [reflexivity|].
      simpl. now rewrite E.
    + intros [= <- <-]. split; reflexivity.
Qed.

Lemma is_prefix_skipn (a cs : list ascii) :
  is_prefix a cs = true -> cs = a ++ skipn (length a) cs.
Proof.
  intros H. destruct (is_prefix_split _ _ H) as [post ->].
  now rewrite skipn_app, Nat.sub_diag, skipn_all.
Qed.

(** What a match of the department pattern looks like. *)
Lemma department_at_spec (cs g : list ascii) :
  department_at cs = Some g ->
  exists u run suffix tail,
    g = u :: run ++ chars suffix
    /\ In suffix department_suffixes
    /\ is_upper u = true
    /\ run <> []
    /\ forallb department_char run = true
    /\ cs = department_prefix ++ g ++ tail.
Proof.
  unfold department_at.
  destruct (is_prefix department_prefix cs) eqn:Hp; [|discriminate].
  apply is_prefix_skipn in Hp.
  destruct (skipn (length department_prefix) cs) as [|u r]; [discriminate|].
  destruct (is_upper u) eqn:Hu; [|discriminate].
  destruct (span department_char r) as [run rest] eqn:Hs.
  destruct (span_spec _ _ _ _ Hs) as [-> Hrun].
  destruct run as [|c run']; [discriminate|].
  destruct (suffix_at rest) as [w|] eqn:Hw; [|discriminate].
  intros [= <-]. unfold suffix_at in Hw. apply find_some in Hw as [Hin Hpre].
  apply in_map_iff in Hin as (suffix & <- & Hin).
  destruct (is_prefix_split _ _ Hpre) as [tail ->].
  exists u, (c :: run'), suffix, tail.
  repeat split; try assumption; try discriminate.
  rewrite Hp. cbn [app]. now rewrite <- !app_assoc.
Qed.

Lemma find_department_spec (cs g : list ascii) :
  find_department cs = Some g ->
  exists pre u run suffix tail,
    g = u :: run ++ chars suffix
    /\ In suffix department_suffixes
    /\ is_upper u = true
    /\ run <> []
    /\ forallb department_char run = true
    /\ cs = pre ++ department_prefix ++ g ++ tail.
Proof.
  induction cs as [|ch r IH]; cbn [find_department].
  - destruct (department_at []) eqn:E; [|discriminate]. intros [= <-].
    destruct (department_at_spec _ _ E) as (u & run & suffix & tail & H).
    exists [], u, run, suffix, tail. exact H.
  - destruct (department_at (ch :: r)) eqn:E.
    + intros [= <-].
      destruct (department_at_spec _ _ E) as (u & run & suffix & tail & H).
      exists [], u, run, suffix, tail. exact H.
    + intros H. destruct (IH H) as (pre & u & run & suffix & tail & H1 & H2 & H3 & H4 & H5 & ->).
      exists (ch :: pre), u, run, suffix, tail. repeat split; assumption.
Qed.

Lemma upper_not_space (c : ascii) : is_upper c = true -> is_space c = false.
Proof.
  destruct c as [[] [] [] [] [] [] [] []]; vm_compute; congruence.
Qed.

Lemma drop_space_keeps (c : ascii) (l : list ascii) :
  is_space c = false -> drop_space (c :: l) = c :: l.
Proof. intros H. simpl. now rewrite H. Qed.

(** The matched name has no whitespace at either end, so [strip] leaves
    it as it is. *)
Lemma strip_department (u : ascii) (run : list ascii) (suffix : string) :
  is_upper u = true -> In suffix department_suffixes ->
  strip (str (u :: run ++ chars suffix)) = str (u :: run ++ chars suffix).
Proof.
  intros Hu Hin. unfold strip. rewrite chars_str.
  rewrite drop_space_keeps by now apply upper_not_space.
  change (u :: run ++ chars suffix) with ((u :: run) ++ chars suffix).
  rewrite rev_app_distr.
  assert (Hrev : exists c l, rev (chars suffix) = c :: l /\ is_space c = false).
  { destruct Hin as [<-|[<-|[<-|[]]]]; eexists _, _; split; reflexivity. }
  destruct Hrev as (c & l & Hr & Hc). rewrite Hr. cbn [app].
  rewrite drop_space_keeps by exact Hc.
  rewrite app_comm_cons, <- Hr, <- rev_app_distr, rev_involutive. reflexivity.
Qed.

Lemma flags_lookup (chunk key : string) :
  In key ["has_eligibility"; "has_programs"; "has_faculty"; "has_introduction"] ->
  exists b, flags chunk !! key = Some (VBool b).
Proof.
  unfold flags.
  intros [<-|[<-|[<-|[<-|[]]]]]; eexists;
    rewrite ?lookup_insert_ne by discriminate; apply lookup_insert_eq.
Qed.

(** [extract_metadata] always gives the four boolean flags and no key
    beyond them except [department]; [department], when present, is a name
    that occurs in the chunk right after [Department of ], starts with a
    capital letter followed by at least one more character, and ends with
    Engineering, Science or Management. *)
Theorem extract_metadata_shape (chunk : string) :
  (forall key,
     In key ["has_eligibility"; "has_programs"; "has_faculty"; "has_introduction"] ->
     exists b, extract_metadata chunk !! key = Some (VBool b))
  /\ dom (extract_metadata chunk)
     ⊆ ({["has_eligibility"; "has_programs"; "has_faculty"; "has_introduction";
          "department"]} : gset string)
  /\ (forall v, extract_metadata chunk !! "department" = Some v ->
        exists u run suffix,
          v = VStr (str (u :: run ++ chars suffix))
          /\ In suffix department_suffixes
          /\ is_upper u = true
          /\ run <> []
          /\ contains ("Department of " ++ str (u :: run ++ chars suffix))%string
                      chunk = true).
Proof.
  unfold extract_metadata.
  destruct (find_department (chars chunk)) as [g|] eqn:Hf.
  - split.
    { intros key Hk. destruct (flags_lookup chunk key Hk) as [b Hb].
      exists b. rewrite lookup_insert_ne; [exact Hb|].
      intros <-. destruct Hk as [H|[H|[H|[H|[]]]]]; discriminate. }
    split.
    { unfold flags. rewrite !dom_insert_L, dom_empty_L. set_solver. }
    intros v. rewrite lookup_insert_eq. intros [= <-].
    destruct (find_department_spec _ _ Hf)
      as (pre & u & run & suffix & tail & -> & Hin & Hu & Hrun & _ & Hcs).
    exists u, run, suffix. rewrite strip_department by assumption.
    repeat split; try assumption.
    unfold contains. rewrite Hcs, Chunking.chars_append, chars_str.
    apply contains_chars_app_r.
    change (chars "Department of ") with department_prefix.
    rewrite app_assoc. apply contains_chars_app_l, contains_chars_refl.
  - split; [apply flags_lookup|]. split.
    { unfold flags. rewrite !dom_insert_L, dom_empty_L. set_solver. }
    intros v. unfold flags.
    rewrite !lookup_insert_ne, lookup_empty by discriminate. discriminate.
Qed.

Lemma extract_metadata_shape_witness :
  let chunk := "The Department of Electrical Engineering. Dean" in
  extract_metadata chunk !! "department" = Some (VStr "Electrical Engineering")
  /\ contains "Department of Electrical Engineering" chunk = true.
Proof.
  intros chunk.
  assert (H : extract_metadata chunk !! "department"
              = Some (VStr "Electrical Engineering")) by (vm_compute; reflexivity).
  split; [exact H|].
  destruct (extract_metadata_shape chunk) as (_ & _ & Hd).
  destruct (Hd _ H) as (u & run & suffix & Hv & _ & _ & _ & Hc).
  assert (E : str (u :: run ++ chars suffix) = "Electrical Engineering")
    by congruence.
  rewrite E in Hc. exact Hc.
Defined.






End Ingestion.
